(** * Human-in-the-loop governance and the Think-Act-Observe workflow engine

    A shallow embedding of [src/governance/humanInTheLoop.ts]
    ([HumanInTheLoopManager]) and of [WorkflowEngine] (the file whose text
    sits in [src/unnamed/part_010]), with the data types of
    [src/types/index.d.ts].

    JavaScript objects that are shared (mutated through one reference and
    read through another) are kept in an explicit store; [Map]s are
    insertion-ordered association lists; timers are an explicit list of
    scheduled callbacks identified by their handle. *)

From Stdlib Require Import String Ascii List ZArith Bool Lia Sorted Permutation.
Import ListNotations.

Local Open Scope string_scope.
Local Open Scope Z_scope.

(** ** JavaScript [Map<string, V>]: insertion-ordered, [set] keeps the
    position of an existing key. *)
Section JsMap.
Context {V : Type}.

Fixpoint map_get (m : list (string * V)) (k : string) : option V :=
  match m with
  | [] => None
  | (k', v) :: t => if String.eqb k k' then Some v else map_get t k
  end.

Fixpoint map_set (m : list (string * V)) (k : string) (v : V) : list (string * V) :=
  match m with
  | [] => [(k, v)]
  | (k', v') :: t =>
      if String.eqb k k' then (k, v) :: t else (k', v') :: map_set t k v
  end.

Definition map_delete (m : list (string * V)) (k : string) : list (string * V) :=
  filter (fun kv => negb (String.eqb (fst kv) k)) m.

Definition map_values (m : list (string * V)) : list V := map snd m.
End JsMap.

(** ** Small helpers for JavaScript values *)

(** [x || d] on a number: [0] is falsy (NaN is not modelled). *)
Definition js_or_num (x d : Z) : Z := if Z.eqb x 0 then d else x.

(** ASCII lower-casing, as the [i] flag of a regular expression compares. *)
Definition lower (c : ascii) : ascii :=
  let n := nat_of_ascii c in
  if andb (Nat.leb 65 n) (Nat.leb n 90) then ascii_of_nat (n + 32) else c.

Fixpoint lower_string (s : string) : string :=
  match s with
  | EmptyString => EmptyString
  | String c s' => String (lower c) (lower_string s')
  end.

(** [true] when [pat] occurs in [s]. *)
Fixpoint contains (pat s : string) : bool :=
  orb (String.prefix pat s)
      (match s with
       | EmptyString => false
       | String _ s' => contains pat s'
       end).

(** [/w1|w2|...|wn/i.test(s)] *)
Definition alternation_ci (words : list string) (s : string) : bool :=
  existsb (fun w => contains (lower_string w) (lower_string s)) words.

(** Decimal rendering of a number inside a template literal. *)
Fixpoint digits_of_nat (fuel n : nat) (acc : string) : string :=
  match fuel with
  | O => acc
  | S fuel' =>
      let d := String (ascii_of_nat (48 + Nat.modulo n 10)) acc in
      if Nat.ltb n 10 then d else digits_of_nat fuel' (Nat.div n 10) d
  end.

Definition Z_to_string (z : Z) : string :=
  if z <? 0 then String "-" (digits_of_nat (S (Z.to_nat (- z))) (Z.to_nat (- z)) "")
  else digits_of_nat (S (Z.to_nat z)) (Z.to_nat z) "".

(** ** Data types of [src/types/index.d.ts] *)

Record ExtensionConfig := mkConfig {
  telemetryEnabled : bool;
  debugMode : bool;
  approvalTimeout : Z;
  maxConcurrentWorkflows : Z;
  autoApproveReadOnly : bool
}.

Module WorkflowStep.
Record t := mk {
  id : string;
  description : string;
  toolId : option string;
  requiresApproval : bool
}.
End WorkflowStep.

(** Values stored in [ProposedAction.details : Record<string, any>]. *)
Inductive DetailValue :=
| dv_steps (steps : list WorkflowStep.t)
| dv_text (s : string).

Inductive Impact := low | medium | high.

Module ProposedAction.
Record t := mk {
  type : string;
  description : string;
  impact : Impact;
  reversible : bool;
  details : list (string * DetailValue)
}.
End ProposedAction.

Inductive ApprovalStatus := ap_pending | ap_approved | ap_denied | ap_expired.

Definition ApprovalStatus_eqb (a b : ApprovalStatus) : bool :=
  match a, b with
  | ap_pending, ap_pending | ap_approved, ap_approved
  | ap_denied, ap_denied | ap_expired, ap_expired => true
  | _, _ => false
  end.

Module ApprovalRequest.
Record t := mk {
  id : string;
  action : ProposedAction.t;
  timestamp : Z;
  status : ApprovalStatus;
  response : option string
}.

Definition set_status (r : t) (s : ApprovalStatus) : t :=
  mk (id r) (action r) (timestamp r) s (response r).
Definition set_response (r : t) (c : option string) : t :=
  mk (id r) (action r) (timestamp r) (status r) c.
End ApprovalRequest.

Module GovernanceRule.
(** [pattern : RegExp] is used only through [pattern.test]. *)
Record t := mk {
  id : string;
  pattern : string -> bool;
  requiresApproval : bool;
  autoApprove : bool;
  priority : Z
}.
End GovernanceRule.

(** ** [HumanInTheLoopManager] *)
Module HITL.

(** Callbacks handed to [setTimeout]. *)
Inductive TimerCallback :=
| cb_expire (requestId : string)     (* the timeout set by [requestApproval] *)
| cb_evict (requestId : string)      (* "Keep in history for a bit" in [handleApproval] *)
| cb_redisplay (requestId : string). (* [showApprovalDialog] again after "View Details" *)

Record Timer := mkTimer { handle : nat; due : Z; callback : TimerCallback }.

(** The manager's fields, plus the event-loop state it touches: the
    approval request objects (by identity, which is their [id]), the
    scheduled timers, the clock, the calls made to stored promise
    resolvers, and the invocations of [showApprovalDialog]. An entry of
    [approvalHandlers] is [{ resolve, timeout }]: [resolve] settles the
    promise of the request under the same key, [timeout] is a handle. *)
Record Manager := mkManager {
  config : ExtensionConfig;
  heap : list (string * ApprovalRequest.t);
  pendingApprovals : list (string * string);
  governanceRules : list GovernanceRule.t;
  approvalHandlers : list (string * nat);
  timers : list Timer;
  nextHandle : nat;
  now : Z;
  resolved : list (string * bool);
  dialogs : list string
}.

Definition set_heap m x := mkManager (config m) x (pendingApprovals m) (governanceRules m)
  (approvalHandlers m) (timers m) (nextHandle m) (now m) (resolved m) (dialogs m).
Definition set_pending m x := mkManager (config m) (heap m) x (governanceRules m)
  (approvalHandlers m) (timers m) (nextHandle m) (now m) (resolved m) (dialogs m).
Definition set_rules m x := mkManager (config m) (heap m) (pendingApprovals m) x
  (approvalHandlers m) (timers m) (nextHandle m) (now m) (resolved m) (dialogs m).
Definition set_handlers m x := mkManager (config m) (heap m) (pendingApprovals m)
  (governanceRules m) x (timers m) (nextHandle m) (now m) (resolved m) (dialogs m).
Definition set_timers m x := mkManager (config m) (heap m) (pendingApprovals m)
  (governanceRules m) (approvalHandlers m) x (nextHandle m) (now m) (resolved m) (dialogs m).
Definition set_now m x := mkManager (config m) (heap m) (pendingApprovals m)
  (governanceRules m) (approvalHandlers m) (timers m) (nextHandle m) x (resolved m) (dialogs m).
Definition push_resolved m x := mkManager (config m) (heap m) (pendingApprovals m)
  (governanceRules m) (approvalHandlers m) (timers m) (nextHandle m) (now m)
  (resolved m ++ [x]) (dialogs m).
Definition push_dialog m x := mkManager (config m) (heap m) (pendingApprovals m)
  (governanceRules m) (approvalHandlers m) (timers m) (nextHandle m) (now m)
  (resolved m) (dialogs m ++ [x]).

(** [setTimeout(cb, ms)]: returns the new handle. *)
Definition setTimeout (m : Manager) (cb : TimerCallback) (ms : Z) : nat * Manager :=
  let h := nextHandle m in
  (h, mkManager (config m) (heap m) (pendingApprovals m) (governanceRules m)
        (approvalHandlers m) (timers m ++ [mkTimer h (now m + ms) cb]) (S h)
        (now m) (resolved m) (dialogs m)).

Definition clearTimeout (m : Manager) (h : nat) : Manager :=
  set_timers m (filter (fun t => negb (Nat.eqb (handle t) h)) (timers m)).

(** Mutation of the request object [r] (all references see it). *)
Definition update_request (m : Manager) (r : string)
    (f : ApprovalRequest.t -> ApprovalRequest.t) : Manager :=
  match map_get (heap m) r with
  | Some o => set_heap m (map_set (heap m) r (f o))
  | None => m
  end.

(** [this.pendingApprovals.get(id)] *)
Definition pending_get (m : Manager) (k : string) : option ApprovalRequest.t :=
  match map_get (pendingApprovals m) k with
  | Some r => map_get (heap m) r
  | None => None
  end.

(** *** Rules *)
Fixpoint insert_desc (r : GovernanceRule.t) (l : list GovernanceRule.t) :=
  match l with
  | [] => [r]
  | x :: t =>
      if GovernanceRule.priority x <? GovernanceRule.priority r then r :: x :: t
      else x :: insert_desc r t
  end.

(** [sort((a, b) => b.priority - a.priority)], a stable sort. *)
Definition sort_desc (l : list GovernanceRule.t) : list GovernanceRule.t :=
  fold_left (fun acc r => insert_desc r acc) l [].

Definition addRule (m : Manager) (rule : GovernanceRule.t) : Manager :=
  set_rules m (sort_desc (governanceRules m ++ [rule])).

Fixpoint findIndex_rule (l : list GovernanceRule.t) (rid : string) : option nat :=
  match l with
  | [] => None
  | x :: t =>
      if String.eqb (GovernanceRule.id x) rid then Some O
      else option_map S (findIndex_rule t rid)
  end.

Fixpoint splice1 {A} (l : list A) (i : nat) : list A :=
  match l, i with
  | [], _ => []
  | _ :: t, O => t
  | x :: t, S i' => x :: splice1 t i'
  end.

Definition removeRule (m : Manager) (rid : string) : bool * Manager :=
  match findIndex_rule (governanceRules m) rid with
  | None => (false, m)
  | Some i => (true, set_rules m (splice1 (governanceRules m) i))
  end.

Definition getRules (m : Manager) : list GovernanceRule.t := governanceRules m.

Definition setupDefaultRules (m : Manager) : Manager :=
  let m := addRule m (GovernanceRule.mk "file-system-write"
             (alternation_ci ["write"; "delete"; "modify"; "remove"; "create"])
             true false 100) in
  let m := addRule m (GovernanceRule.mk "read-only"
             (alternation_ci ["read"; "list"; "get"; "fetch"; "search"])
             false (autoApproveReadOnly (config m)) 50) in
  addRule m (GovernanceRule.mk "high-impact" (fun _ => true) true false 10).

(** [new HumanInTheLoopManager(config)], at clock [t0]. *)
Definition create (cfg : ExtensionConfig) (t0 : Z) : Manager :=
  setupDefaultRules (mkManager cfg [] [] [] [] [] 1 t0 [] []).

Fixpoint shouldAutoApprove_rules (rules : list GovernanceRule.t)
    (action : ProposedAction.t) : bool :=
  match rules with
  | [] => false
  | rule :: t =>
      if orb (GovernanceRule.pattern rule (ProposedAction.type action))
             (GovernanceRule.pattern rule (ProposedAction.description action))
      then if GovernanceRule.autoApprove rule then true
           else shouldAutoApprove_rules t action
      else shouldAutoApprove_rules t action
  end.

Definition shouldAutoApprove (m : Manager) (action : ProposedAction.t) : bool :=
  shouldAutoApprove_rules (governanceRules m) action.

(** "For now, never auto-deny" *)
Definition shouldAutoDeny (m : Manager) (action : ProposedAction.t) : bool := false.

(** *** Requests *)

(** What [requestApproval] hands back: a promise already settled by a
    [return], or the promise of the request [requestId], which the first
    call of its stored [resolve] settles. *)
Inductive ApprovalPromise :=
| settled_now (b : bool)
| awaiting (requestId : string).

Definition timeoutMs_of (m : Manager) (timeout : option Z) : Z :=
  js_or_num (match timeout with Some t => t | None => 0 end)
            (js_or_num (approvalTimeout (config m)) 30000).

(** [requestApproval(action, timeout?)]; [fresh] is the [uuidv4()] value. *)
Definition requestApproval (m : Manager) (fresh : string)
    (action : ProposedAction.t) (timeout : option Z) : ApprovalPromise * Manager :=
  let timeoutMs := timeoutMs_of m timeout in
  if shouldAutoApprove m action then (settled_now true, m)
  else if shouldAutoDeny m action then (settled_now false, m)
  else
    let request := ApprovalRequest.mk fresh action (now m) ap_pending None in
    let m := set_heap m (map_set (heap m) fresh request) in
    let m := set_pending m (map_set (pendingApprovals m) fresh fresh) in
    let '(timeoutHandle, m) := setTimeout m (cb_expire fresh) timeoutMs in
    let m := set_handlers m (map_set (approvalHandlers m) fresh timeoutHandle) in
    (awaiting fresh, push_dialog m fresh).

(** [handleApproval(requestId, approved, comment?)] *)
Definition handleApproval (m : Manager) (requestId : string) (approved : bool)
    (comment : option string) : Manager :=
  match map_get (pendingApprovals m) requestId with
  | None => m
  | Some r =>
      let m := update_request m r (fun o =>
                 ApprovalRequest.set_response
                   (ApprovalRequest.set_status o (if approved then ap_approved else ap_denied))
                   comment) in
      let m := match map_get (approvalHandlers m) requestId with
               | Some h =>
                   let m := clearTimeout m h in
                   let m := push_resolved m (requestId, approved) in
                   set_handlers m (map_delete (approvalHandlers m) requestId)
               | None => m
               end in
      snd (setTimeout m (cb_evict requestId) 60000)
  end.

(** [getAllApprovals()] *)
Definition getAllApprovals (m : Manager) : list ApprovalRequest.t :=
  flat_map (fun kv => match map_get (heap m) (snd kv) with
                      | Some o => [o] | None => [] end)
           (pendingApprovals m).

(** [getPendingApprovals()] *)
Definition getPendingApprovals (m : Manager) : list ApprovalRequest.t :=
  filter (fun r => ApprovalStatus_eqb (ApprovalRequest.status r) ap_pending)
         (getAllApprovals m).

(** [cancelApproval(requestId)] *)
Definition cancelApproval (m : Manager) (requestId : string) : bool * Manager :=
  match map_get (pendingApprovals m) requestId with
  | None => (false, m)
  | Some r =>
      match map_get (heap m) r with
      | None => (false, m)
      | Some o =>
          if negb (ApprovalStatus_eqb (ApprovalRequest.status o) ap_pending) then (false, m)
          else
            let m := update_request m r (fun o =>
                       ApprovalRequest.set_response
                         (ApprovalRequest.set_status o ap_denied) (Some "Cancelled")) in
            let m := match map_get (approvalHandlers m) requestId with
                     | Some h =>
                         let m := clearTimeout m h in
                         let m := push_resolved m (requestId, false) in
                         set_handlers m (map_delete (approvalHandlers m) requestId)
                     | None => m
                     end in
            (true, set_pending m (map_delete (pendingApprovals m) requestId))
      end
  end.

(** [dispose()] *)
Definition dispose (m : Manager) : Manager :=
  let m := fold_left (fun m kv => push_resolved (clearTimeout m (snd kv)) (fst kv, false))
                     (approvalHandlers m) m in
  set_pending (set_handlers m []) [].

Definition is_answer (answer : option string) (s : string) : bool :=
  match answer with Some a => String.eqb a s | None => false end.

(** The continuation of [showApprovalDialog(request)] once the modal
    message returns [answer] ([None] when dismissed). *)
Definition dialogAnswer (m : Manager) (requestId : string) (answer : option string) : Manager :=
  if is_answer answer "View Details" then snd (setTimeout m (cb_redisplay requestId) 500)
  else if orb (is_answer answer "Approve") (is_answer answer "Deny")
  then handleApproval m requestId (is_answer answer "Approve") None
  else handleApproval m requestId false (Some "Dismissed").

Definition run_callback (m : Manager) (cb : TimerCallback) : Manager :=
  match cb with
  | cb_expire r =>
      let m := update_request m r (fun o => ApprovalRequest.set_status o ap_expired) in
      let m := set_pending m (map_delete (pendingApprovals m) r) in
      let m := set_handlers m (map_delete (approvalHandlers m) r) in
      push_resolved m (r, false)
  | cb_evict r => set_pending m (map_delete (pendingApprovals m) r)
  | cb_redisplay r => push_dialog m r
  end.

Fixpoint find_timer (l : list Timer) (h : nat) : option Timer :=
  match l with
  | [] => None
  | t :: l' => if Nat.eqb (handle t) h then Some t else find_timer l' h
  end.

(** The event loop runs the callback of the timer [h]. *)
Definition fire (m : Manager) (h : nat) : Manager :=
  match find_timer (timers m) h with
  | Some t => run_callback (clearTimeout m h) (callback t)
  | None => m
  end.

(** Everything that can happen to a manager. *)
Inductive Event :=
| ev_request (fresh : string) (action : ProposedAction.t) (timeout : option Z)
| ev_handle (requestId : string) (approved : bool) (comment : option string)
| ev_dialog (requestId : string) (answer : option string)
| ev_cancel (requestId : string)
| ev_dispose
| ev_add_rule (rule : GovernanceRule.t)
| ev_remove_rule (ruleId : string)
| ev_fire (h : nat)
| ev_tick (dt : Z).

Definition step (m : Manager) (e : Event) : Manager :=
  match e with
  | ev_request fresh a t => snd (requestApproval m fresh a t)
  | ev_handle r b c => handleApproval m r b c
  | ev_dialog r ans => dialogAnswer m r ans
  | ev_cancel r => snd (cancelApproval m r)
  | ev_dispose => dispose m
  | ev_add_rule rule => addRule m rule
  | ev_remove_rule rid => snd (removeRule m rid)
  | ev_fire h => fire m h
  | ev_tick dt => set_now m (now m + dt)
  end.

Definition run (m : Manager) (evs : list Event) : Manager := fold_left step evs m.

(** The value the promise of request [r] settles to: the first call of
    its resolver. *)
Fixpoint first_resolution (l : list (string * bool)) (r : string) : option bool :=
  match l with
  | [] => None
  | (r', b) :: t => if String.eqb r r' then Some b else first_resolution t r
  end.

Definition resolutions_of (m : Manager) (r : string) : list bool :=
  map snd (filter (fun p => String.eqb (fst p) r) (resolved m)).

(** *** Settlement of one request *)

(** Timer callbacks that act on request [r]. *)
Definition cb_touches (r : string) (cb : TimerCallback) : bool :=
  match cb with
  | cb_expire q | cb_evict q => String.eqb q r
  | cb_redisplay _ => false
  end.

(** Events that settle (or re-create) request [r] whose timeout timer
    has handle [h]: a decision delivered for it, its cancellation,
    [dispose], or its own timer firing. *)
Definition settles (r : string) (h : nat) (e : Event) : bool :=
  match e with
  | ev_request q _ _ | ev_handle q _ _ | ev_cancel q => String.eqb q r
  | ev_dialog q ans => andb (String.eqb q r) (negb (is_answer ans "View Details"))
  | ev_dispose => true
  | ev_fire h' => Nat.eqb h' h
  | ev_add_rule _ | ev_remove_rule _ | ev_tick _ => false
  end.

(** Well-formedness of a manager reached by the operations above: timer
    handles were handed out below [nextHandle], a key of
    [pendingApprovals] maps to the request object with that [id]. *)
Record gate_wf (m : Manager) : Prop := {
  wf_timers : forall t, In t (timers m) -> (handle t < nextHandle m)%nat;
  wf_handlers : forall kv, In kv (approvalHandlers m) -> (snd kv < nextHandle m)%nat;
  wf_keys : forall k v, In (k, v) (pendingApprovals m) -> k = v;
  wf_ids : forall k o, In (k, o) (heap m) -> ApprovalRequest.id o = k
}.

(** [r] is a fresh id: never resolved, no timer acts on it. *)
Record fresh_for (r : string) (m : Manager) : Prop := {
  fr_unresolved : resolutions_of m r = [];
  fr_timers : forall t, In t (timers m) -> cb_touches r (callback t) = false
}.

(** Request [r] is waiting: its timeout timer [h] (due at [d]) and its
    handler are in place and nothing has resolved it. *)
Record Unsettled (r : string) (h : nat) (d : Z) (m : Manager) : Prop := {
  u_pending : map_get (pendingApprovals m) r = Some r;
  u_object : exists o, map_get (heap m) r = Some o /\ ApprovalRequest.status o = ap_pending;
  u_handler : map_get (approvalHandlers m) r = Some h;
  u_timer : find_timer (timers m) h = Some (mkTimer h d (cb_expire r));
  u_others : forall t, In t (timers m) -> handle t <> h -> cb_touches r (callback t) = false;
  u_handles : forall kv, In kv (approvalHandlers m) -> fst kv <> r -> snd kv <> h;
  u_next : (h < nextHandle m)%nat;
  u_unresolved : resolutions_of m r = [];
  u_keys : forall k v, In (k, v) (pendingApprovals m) -> k = v;
  u_ids : forall k o, In (k, o) (heap m) -> ApprovalRequest.id o = k
}.

End HITL.

(** ** Workflow data of [src/types/index.d.ts] *)

Module Analysis.
Record t := mk {
  plan : string;
  steps : list WorkflowStep.t;
  requiresApproval : bool;
  confidence : Z
}.
End Analysis.

Module ActionResult.
(** [result?: any] is kept as text. *)
Record t := mk {
  stepId : string;
  success : bool;
  result : option string;
  error : option string;
  duration : Z
}.
End ActionResult.

Module Observations.
Record t := mk {
  success : bool;
  requiresIteration : bool;
  feedback : string;
  improvements : option (list string)
}.
End Observations.

Module WorkflowResult.
Record t := mk {
  success : bool;
  analysis : Analysis.t;
  actions : list ActionResult.t;
  observations : Observations.t;
  iterations : Z
}.
End WorkflowResult.

Inductive Status := pending | thinking | acting | observing | completed | failed.

Inductive PhaseName := ph_think | ph_act | ph_observe.
Inductive PhaseStatus := phase_pending | phase_in_progress | phase_completed.

(** The values the engine stores in [currentPhase.result : any]. *)
Inductive PhaseResult :=
| res_analysis (a : Analysis.t)
| res_actions (l : list ActionResult.t)
| res_observations (o : Observations.t).

(** [result?.analysis] and [result?.actions]: none of [Analysis],
    [ActionResult[]] and [Observations] has a property of that name. *)
Definition result_analysis (r : PhaseResult) : option Analysis.t :=
  match r with res_analysis _ | res_actions _ | res_observations _ => None end.
Definition result_actions (r : PhaseResult) : option (list ActionResult.t) :=
  match r with res_analysis _ | res_actions _ | res_observations _ => None end.

Module WorkflowPhase.
Record t := mk { name : PhaseName; status : PhaseStatus; result : option PhaseResult }.
End WorkflowPhase.

Module WorkflowState.
Record t := mk {
  id : string;
  name : string;
  status : Status;
  startTime : Z;
  endTime : option Z;
  currentPhase : option WorkflowPhase.t;
  iterations : Z;
  error : option string
}.
Definition set_status (s : t) x :=
  mk (id s) (name s) x (startTime s) (endTime s) (currentPhase s) (iterations s) (error s).
Definition set_endTime (s : t) x :=
  mk (id s) (name s) (status s) (startTime s) x (currentPhase s) (iterations s) (error s).
Definition set_currentPhase (s : t) x :=
  mk (id s) (name s) (status s) (startTime s) (endTime s) x (iterations s) (error s).
Definition set_iterations (s : t) x :=
  mk (id s) (name s) (status s) (startTime s) (endTime s) (currentPhase s) x (error s).
Definition set_error (s : t) x :=
  mk (id s) (name s) (status s) (startTime s) (endTime s) (currentPhase s) (iterations s) x.
End WorkflowState.

(** ** [WorkflowEngine] *)
Module Engine.

(** What other code can do while the engine is suspended at an [await]:
    call [cancelWorkflow(id)] or cancel the [CancellationToken]. *)
Inductive EnvEvent :=
| env_cancelWorkflow (id : string)
| env_requestCancellation.

(** An awaited call: its value or the exception it throws, with the
    external events that ran while it was pending. *)
Inductive Outcome (A : Type) :=
| Done (v : A) (during : list EnvEvent)
| Raise (msg : string) (during : list EnvEvent).
Arguments Done {A}. Arguments Raise {A}.

(** Which statement wrote [state.status]. *)
Inductive Writer :=
| by_execute   (* the initial state in [executeWorkflow] *)
| by_loop      (* [executeWorkflowInternal] *)
| by_finally   (* the [finally] block of [executeWorkflow] *)
| by_cancel.   (* [cancelWorkflow] *)

Inductive Call :=
| c_think | c_act | c_observe | c_refine
| c_approval (action : ProposedAction.t).

(** Observable effects, in the order they happen. *)
Inductive Obs :=
| o_status (wid : string) (s : Status) (w : Writer)
| o_call (c : Call)
| o_progress (msg : string)
| o_markdown (msg : string)
| o_cancel_result (wid : string) (b : bool).

(** The engine's [activeWorkflows] map (its values are the [state]
    objects the running loops mutate), the cancellation token
    ([None] when no token was passed), the clock, the removals scheduled
    by [setTimeout] in the [finally] block, and the trace. *)
Record World := mkWorld {
  activeWorkflows : list (string * WorkflowState.t);
  token : option bool;
  clock : Z;
  deletions : list (Z * string);
  trace : list Obs
}.

Definition set_active w x := mkWorld x (token w) (clock w) (deletions w) (trace w).
Definition set_token w x := mkWorld (activeWorkflows w) x (clock w) (deletions w) (trace w).
Definition set_deletions w x := mkWorld (activeWorkflows w) (token w) (clock w) x (trace w).
Definition record w o :=
  mkWorld (activeWorkflows w) (token w) (clock w) (deletions w) (trace w ++ [o]).

(** Mutation of the state object of execution [wid]. *)
Definition update_state (w : World) (wid : string)
    (f : WorkflowState.t -> WorkflowState.t) : World :=
  match map_get (activeWorkflows w) wid with
  | Some s => set_active w (map_set (activeWorkflows w) wid (f s))
  | None => w
  end.

(** [state.status = s], written by [by]. *)
Definition write_status (w : World) (wid : string) (s : Status) (by_ : Writer) : World :=
  match map_get (activeWorkflows w) wid with
  | Some _ => record (update_state w wid (fun st => WorkflowState.set_status st s))
                     (o_status wid s by_)
  | None => w
  end.

(** [cancelWorkflow(workflowId)] *)
Definition cancelWorkflow (w : World) (wid : string) : bool * World :=
  match map_get (activeWorkflows w) wid with
  | None => (false, w)
  | Some _ =>
      let w := write_status w wid failed by_cancel in
      let w := update_state w wid (fun st => WorkflowState.set_error st (Some "Cancelled by user")) in
      (true, update_state w wid (fun st => WorkflowState.set_endTime st (Some (clock w))))
  end.

Definition getWorkflowState (w : World) (wid : string) : option WorkflowState.t :=
  map_get (activeWorkflows w) wid.

Definition getActiveWorkflows (w : World) : list WorkflowState.t :=
  map_values (activeWorkflows w).

Definition apply_env (w : World) (e : EnvEvent) : World :=
  match e with
  | env_cancelWorkflow wid =>
      let '(b, w) := cancelWorkflow w wid in record w (o_cancel_result wid b)
  | env_requestCancellation =>
      match token w with Some _ => set_token w (Some true) | None => w end
  end.

Definition apply_envs (w : World) (evs : list EnvEvent) : World := fold_left apply_env evs w.

Definition isCancellationRequested (w : World) : bool :=
  match token w with Some b => b | None => false end.

(** The [Workflow] interface. A workflow is a value of [S]; a method
    returns the (possibly mutated) workflow with its result. *)
Class Workflow (S : Type) := {
  wf_name : S -> string;
  think : S -> Outcome (Analysis.t * S);
  act : S -> Analysis.t -> Outcome (list ActionResult.t * S);
  observe : S -> list ActionResult.t -> Outcome (Observations.t * S);
  refine : S -> Observations.t -> Outcome S
}.

(** The engine's collaborators: its configuration and the governance
    manager, seen through the value [requestApproval] settles to. *)
Record EngineEnv := mkEngineEnv {
  config : ExtensionConfig;
  requestApproval : World -> ProposedAction.t -> Outcome bool
}.

Inductive LoopExit :=
| loop_return (r : WorkflowResult.t)
| loop_throw (msg : string)
| loop_break
| loop_out_of_fuel.

Inductive ExecResult :=
| exec_return (r : WorkflowResult.t)
| exec_throw (msg : string)
| exec_out_of_fuel.

Definition fallback_analysis : Analysis.t := Analysis.mk "" [] false 0.

Section Loop.
Context {Wf : Type} `{Workflow Wf}.
Variables (eng : EngineEnv) (stream : bool) (wid : string).

(** [this.config.maxConcurrentWorkflows || 5] *)
Definition maxIterations : Z := js_or_num (maxConcurrentWorkflows (config eng)) 5.

(** [state.iterations]; the state of [wid] stays in [activeWorkflows]
    while its loop runs. *)
Definition state_iterations (w : World) : Z :=
  match map_get (activeWorkflows w) wid with
  | Some st => WorkflowState.iterations st
  | None => 0
  end.

Definition progress (w : World) (msg : string) : World :=
  if stream then record w (o_progress msg) else w.
Definition markdown (w : World) (msg : string) : World :=
  if stream then record w (o_markdown msg) else w.

(** [state.currentPhase = { name, status: 'in_progress' }] *)
Definition start_phase (w : World) (n : PhaseName) : World :=
  update_state w wid (fun st =>
    WorkflowState.set_currentPhase st (Some (WorkflowPhase.mk n phase_in_progress None))).

(** [state.currentPhase.status = 'completed'; state.currentPhase.result = r] *)
Definition complete_phase (w : World) (r : PhaseResult) : World :=
  update_state w wid (fun st =>
    match WorkflowState.currentPhase st with
    | Some ph => WorkflowState.set_currentPhase st
                   (Some (WorkflowPhase.mk (WorkflowPhase.name ph) phase_completed (Some r)))
    | None => st
    end).

Definition set_error (w : World) (e : string) : World :=
  update_state w wid (fun st => WorkflowState.set_error st (Some e)).

(** The private [requestApproval(analysis, stream)] builds this action. *)
Definition approval_action (analysis : Analysis.t) : ProposedAction.t :=
  ProposedAction.mk "workflow_execution" (Analysis.plan analysis) medium false
    [("steps", dv_steps (Analysis.steps analysis))].

Definition denied_result (analysis : Analysis.t) (w : World) : WorkflowResult.t :=
  WorkflowResult.mk false analysis []
    (Observations.mk false false "Action denied by user" None) (state_iterations w).

(** From the check of [observations.requiresIteration] to the end of
    the loop body; [k] is the next pass of the loop. *)
Definition after_observe (k : Wf -> World -> LoopExit * World) (analysis : Analysis.t)
    (actions : list ActionResult.t) (cur : Wf) (obs : Observations.t) (w : World)
    : LoopExit * World :=
  if negb (Observations.requiresIteration obs) then
    let w := write_status w wid completed by_loop in
    (loop_return (WorkflowResult.mk (Observations.success obs) analysis actions obs
                    (state_iterations w)), w)
  else
    let w := progress w ("Refining approach (iteration " ++ Z_to_string (state_iterations w)
                         ++ ")...") in
    let w := record w (o_call c_refine) in
    match refine cur obs with
    | Raise msg ev => (loop_throw msg, apply_envs w ev)
    | Done cur' ev => k cur' (apply_envs w ev)
    end.

(** ACT PHASE and OBSERVE PHASE *)
Definition act_phase (k : Wf -> World -> LoopExit * World) (analysis : Analysis.t)
    (cur : Wf) (w : World) : LoopExit * World :=
  let w := write_status w wid acting by_loop in
  let w := start_phase w ph_act in
  let w := progress w "Acting..." in
  let w := record w (o_call c_act) in
  match act cur analysis with
  | Raise msg ev => (loop_throw msg, apply_envs w ev)
  | Done (actions, cur) ev =>
      let w := complete_phase (apply_envs w ev) (res_actions actions) in
      let w := write_status w wid observing by_loop in
      let w := start_phase w ph_observe in
      let w := progress w "Observing..." in
      let w := record w (o_call c_observe) in
      match observe cur actions with
      | Raise msg ev => (loop_throw msg, apply_envs w ev)
      | Done (obs, cur) ev =>
          let w := complete_phase (apply_envs w ev) (res_observations obs) in
          after_observe k analysis actions cur obs w
      end
  end.

(** One pass of the loop body after the two checks: [state.iterations++],
    THINK PHASE, the governance check, then [act_phase]. (The markdown
    text is written without its leading emoji and line breaks.) *)
Definition iteration (k : Wf -> World -> LoopExit * World) (cur : Wf) (w : World)
    : LoopExit * World :=
  let w := update_state w wid (fun st =>
             WorkflowState.set_iterations st (WorkflowState.iterations st + 1)) in
  let w := write_status w wid thinking by_loop in
  let w := start_phase w ph_think in
  let w := progress w "Thinking..." in
  let w := record w (o_call c_think) in
  match think cur with
  | Raise msg ev => (loop_throw msg, apply_envs w ev)
  | Done (analysis, cur) ev =>
      let w := complete_phase (apply_envs w ev) (res_analysis analysis) in
      if andb (Analysis.requiresApproval analysis) (negb (autoApproveReadOnly (config eng)))
      then
        let w := markdown w "This action requires approval." in
        let pa := approval_action analysis in
        let w := record w (o_call (c_approval pa)) in
        match requestApproval eng w pa with
        | Raise msg ev => (loop_throw msg, apply_envs w ev)
        | Done approved ev =>
            let w := apply_envs w ev in
            if negb approved then
              let w := write_status w wid failed by_loop in
              let w := set_error w "Action denied by user" in
              (loop_return (denied_result analysis w), w)
            else act_phase k analysis cur w
        end
      else act_phase k analysis cur w
  end.

(** [while (true) { ... }], run with enough fuel for every pass. *)
Fixpoint loop (fuel : nat) (cur : Wf) (w : World) : LoopExit * World :=
  match fuel with
  | O => (loop_out_of_fuel, w)
  | S fuel' =>
      if isCancellationRequested w then
        let w := write_status w wid failed by_loop in
        let w := set_error w "Cancelled by user" in
        (loop_throw "Workflow cancelled", w)
      else if maxIterations <=? state_iterations w then (loop_break, w)
      else iteration (loop fuel') cur w
  end.

(** The result after [break]: [state.currentPhase?.result?.analysis || ...]. *)
Definition cap_result (w : World) : WorkflowResult.t :=
  let res := match map_get (activeWorkflows w) wid with
             | Some st => match WorkflowState.currentPhase st with
                          | Some ph => WorkflowPhase.result ph
                          | None => None
                          end
             | None => None
             end in
  WorkflowResult.mk false
    (match option_map result_analysis res with
     | Some (Some a) => a | _ => fallback_analysis end)
    (match option_map result_actions res with
     | Some (Some l) => l | _ => [] end)
    (Observations.mk false false
       ("Max iterations (" ++ Z_to_string maxIterations ++ ") reached") None)
    (state_iterations w).

(** [executeWorkflowInternal]: the loop starts from [iterations = 0],
    so [maxIterations + 1] passes of its head always suffice. *)
Definition executeWorkflowInternal (cur : Wf) (w : World) : ExecResult * World :=
  match loop (S (Z.to_nat maxIterations)) cur w with
  | (loop_return r, w) => (exec_return r, w)
  | (loop_throw m, w) => (exec_throw m, w)
  | (loop_out_of_fuel, w) => (exec_out_of_fuel, w)
  | (loop_break, w) =>
      let w := write_status w wid completed by_loop in
      (exec_return (cap_result w), w)
  end.

(** [executeWorkflow(workflow, stream?, token?)]; [wid] is the
    [uuidv4()] value. *)
Definition executeWorkflow (workflow : Wf) (w : World) : ExecResult * World :=
  let state := WorkflowState.mk wid (wf_name workflow) thinking (clock w) None None 0 None in
  let w := set_active w (map_set (activeWorkflows w) wid state) in
  let w := record w (o_status wid thinking by_execute) in
  let '(res, w) := executeWorkflowInternal workflow w in
  (* finally *)
  let w := update_state w wid (fun st => WorkflowState.set_endTime st (Some (clock w))) in
  let w := write_status w wid completed by_finally in
  (res, set_deletions w (deletions w ++ [(clock w + 60000, wid)])).

End Loop.

End Engine.

(** ** Concrete configurations, actions and workflows *)
Module Scenario.
Import Engine.

Definition cfg (autoApprove : bool) (maxWf : Z) : ExtensionConfig :=
  mkConfig false false 30000 maxWf autoApprove.

Definition gate0 : HITL.Manager := HITL.create (cfg false 5) 0.

Definition write_file : ProposedAction.t :=
  ProposedAction.mk "write" "Write file" medium true [].
Definition read_file : ProposedAction.t :=
  ProposedAction.mk "read" "Read file" low true [].

(** [addRule({ priority: 100, autoApprove: true, pattern: /^read$/ })] *)
Definition read_rule : GovernanceRule.t :=
  GovernanceRule.mk "read" (fun s => String.eqb s "read") false true 100.

(** A workflow driven by a script: fixed analysis and actions, the
    [n]-th [observe] returns [sc_obs n], and [sc_during_act n] happens
    while the [n]-th [act] is awaited. [refine] returns [this]. *)
Record Script := mkScript {
  sc_name : string;
  sc_analysis : Analysis.t;
  sc_actions : list ActionResult.t;
  sc_obs : nat -> Observations.t;
  sc_during_act : nat -> list EnvEvent
}.

#[global] Instance scripted : Workflow (Script * nat) := {
  wf_name := fun s => sc_name (fst s);
  think := fun s => Done (sc_analysis (fst s), s) [];
  act := fun s _ => Done (sc_actions (fst s), s) (sc_during_act (fst s) (snd s));
  observe := fun s _ => Done (sc_obs (fst s) (snd s), (fst s, S (snd s))) [];
  refine := fun s _ => Done s []
}.

Definition plan (approval : bool) : Analysis.t :=
  Analysis.mk "Test plan" [WorkflowStep.mk "step-1" "Test step" None false] approval 1.
Definition step_done : ActionResult.t := ActionResult.mk "step-1" true (Some "done") None 0.

Definition obs (success iterate : bool) : Observations.t :=
  Observations.mk success iterate (if success then "Success" else "Failed") None.

(** The scripted workflow asking for another iteration on its first
    [iterate_until] observations. *)
Definition script (approval : bool) (iterate_until : nat) (during : nat -> list EnvEvent)
    : Script * nat :=
  (mkScript "test-workflow" (plan approval) [step_done]
     (fun n => if Nat.ltb n iterate_until then obs false true else obs true false)
     during, O).

Definition no_events : nat -> list EnvEvent := fun _ => [].

Definition engine (c : ExtensionConfig) (approved : bool) : EngineEnv :=
  mkEngineEnv c (fun _ _ => Done approved []).

Definition world0 : World := mkWorld [] (Some false) 0 [] [].

(** [cancelWorkflow(wid)] called while the first [act] is awaited. *)
Definition cancel_in_first_act (wid : string) : nat -> list EnvEvent :=
  fun n => match n with O => [env_cancelWorkflow wid] | S _ => [] end.

(** A world in which [executeWorkflow] has just created the state of
    ["wf1"]. *)
Definition world_wf1 : World :=
  mkWorld [("wf1", WorkflowState.mk "wf1" "test-workflow" thinking 0 None None 0 None)]
    (Some false) 0 [] [].

(** A workflow whose every [observe] asks for another iteration. *)
Record Looper := mkLooper { looper_passes : nat }.

#[global] Instance looping : Workflow Looper := {
  wf_name := fun _ => "looper";
  think := fun s => Done (plan false, s) [];
  act := fun s _ => Done ([step_done], s) [];
  observe := fun s _ => Done (obs false true, mkLooper (S (looper_passes s))) [];
  refine := fun s _ => Done s []
}.
End Scenario.

(** ** Properties of engine runs *)
Module EngineProps.
Import Engine.

(** The state object of [wid] is in [activeWorkflows], with
    [iterations = i]. *)
Definition Live (wid : string) (w : World) (i : Z) : Prop :=
  exists st, map_get (activeWorkflows w) wid = Some st /\ WorkflowState.iterations st = i.

Definition not_cancelled (w : World) : Prop := isCancellationRequested w = false.

(** No [token.cancel()] among the events. *)
Definition no_cancel (evs : list EnvEvent) : Prop := ~ In env_requestCancellation evs.

(** The call settles normally, and nobody cancels the token meanwhile. *)
Definition quiet {A : Type} (o : Outcome A) : Prop :=
  match o with Done _ ev => no_cancel ev | Raise _ _ => False end.

(** Order of the statuses: thinking, acting, observing, then a terminal one. *)
Definition rank (s : Status) : nat :=
  match s with
  | pending => 0 | thinking => 1 | acting => 2 | observing => 3
  | completed | failed => 4
  end.

Definition is_terminal (s : Status) : bool :=
  match s with completed | failed => true | _ => false end.

(** A step that does not go backward and does not leave a terminal status. *)
Definition forward_step (a b : Status) : bool :=
  negb (is_terminal a) && Nat.leb (rank a) (rank b).

Fixpoint chain_forward (l : list Status) : bool :=
  match l with
  | a :: ((b :: _) as t) => forward_step a b && chain_forward t
  | _ => true
  end.

(** A forward step, or the return from observing to thinking of a new
    iteration. *)
Definition allowed_step (a b : Status) : bool :=
  match a, b with
  | observing, thinking => true
  | _, _ => forward_step a b
  end.

Fixpoint chain_ok (l : list Status) : bool :=
  match l with
  | a :: ((b :: _) as t) => allowed_step a b && chain_ok t
  | _ => true
  end.

Definition own_writer (b : Writer) : bool :=
  match b with by_execute | by_loop => true | by_finally | by_cancel => false end.

(** The statuses [executeWorkflow] and its loop assign to [wid], in order. *)
Definition own_statuses (wid : string) (tr : list Obs) : list Status :=
  flat_map (fun o => match o with
                     | o_status i s b => if String.eqb i wid && own_writer b then [s] else []
                     | _ => []
                     end) tr.

(** All statuses assigned to [wid], in order. *)
Definition all_statuses (wid : string) (tr : list Obs) : list Status :=
  flat_map (fun o => match o with
                     | o_status i s _ => if String.eqb i wid then [s] else []
                     | _ => []
                     end) tr.

Definition calls_of (tr : list Obs) : list Call :=
  flat_map (fun o => match o with o_call c => [c] | _ => [] end) tr.
(** The statuses assigned so far to [wid] by [executeWorkflow] and its
    loop form a [chain_ok] chain ending in [a], and the state of [wid] is
    in [activeWorkflows]. *)
Definition chain_at (wid : string) (w : World) (a : Status) : Prop :=
  (exists i, Live wid w i) /\
  exists l, own_statuses wid (trace w) = (l ++ [a])%list /\ chain_ok (l ++ [a]) = true.

(** What a pass of the loop guarantees: the chain, and, when it ends
    with [break], a last status from which [completed] is a step. *)
Definition loop_post (wid : string) (x : LoopExit * World) : Prop :=
  exists b, chain_at wid (snd x) b /\ (fst x = loop_break -> b = thinking \/ b = observing).
End EngineProps.

(** ** [AuditLogger] (the second class of [src/governance/humanInTheLoop.ts]) *)
Module Audit.

Inductive LogType := tool_execution | approval | workflow | error.

Definition LogType_eqb (a b : LogType) : bool :=
  match a, b with
  | tool_execution, tool_execution | approval, approval
  | workflow, workflow | error, error => true
  | _, _ => false
  end.

(** [details : Record<string, any>] as each [log*] method builds it;
    values of type [any] other than the proposed action are kept as
    their JSON text, and [...details] of [logWorkflow] as its entries. *)
Inductive Details :=
| d_tool (toolId : string) (parameters : string)
| d_approval (requestId : string) (approved : bool) (action : ProposedAction.t)
    (comment : option string)
| d_workflow (workflowId workflowName status : string) (details : list (string * string))
| d_error (message : string) (stack : option string) (context : string).

Module AuditLogEntry.
Record t := mk {
  id : string;
  timestamp : Z;
  type : LogType;
  userId : option string;
  details : Details
}.
End AuditLogEntry.

(** The logger's [logs] field and the value stored under ['auditLogs']
    in [context.globalState] ([None] while nothing is stored). *)
Record Logger := mkLogger {
  logs : list AuditLogEntry.t;
  stored : option (list AuditLogEntry.t)
}.

Definition maxLogEntries : nat := 1000.

(** [saveLogs()]: [globalState.update('auditLogs', this.logs)]. *)
Definition saveLogs (l : Logger) : Logger := mkLogger (logs l) (Some (logs l)).

(** [addEntry(entry)]: push, trim with [slice(-maxLogEntries)], save. *)
Definition addEntry (l : Logger) (entry : AuditLogEntry.t) : Logger :=
  let xs := (logs l ++ [entry])%list in
  let xs := if Nat.ltb maxLogEntries (length xs)
            then skipn (length xs - maxLogEntries) xs else xs in
  saveLogs (mkLogger xs (stored l)).

(** In the [log*] methods, [fresh] is the [uuidv4()] value and [t] the
    value of [Date.now()]. *)
Definition logToolExecution (l : Logger) (fresh : string) (t : Z)
    (toolId parameters : string) : Logger :=
  addEntry l (AuditLogEntry.mk fresh t tool_execution None (d_tool toolId parameters)).

Definition logApproval (l : Logger) (fresh : string) (t : Z) (requestId : string)
    (approved : bool) (action : ProposedAction.t) (comment : option string) : Logger :=
  addEntry l (AuditLogEntry.mk fresh t approval None
                (d_approval requestId approved action comment)).

Definition logWorkflow (l : Logger) (fresh : string) (t : Z)
    (workflowId workflowName status : string) (details : list (string * string)) : Logger :=
  addEntry l (AuditLogEntry.mk fresh t workflow None
                (d_workflow workflowId workflowName status details)).

Definition logError (l : Logger) (fresh : string) (t : Z)
    (message : string) (stack : option string) (context : string) : Logger :=
  addEntry l (AuditLogEntry.mk fresh t error None (d_error message stack context)).

Definition getAllLogs (l : Logger) : list AuditLogEntry.t := logs l.

Definition getLogsByType (l : Logger) (ty : LogType) : list AuditLogEntry.t :=
  filter (fun e => LogType_eqb (AuditLogEntry.type e) ty) (logs l).

Definition getLogsByTimeRange (l : Logger) (startTime endTime : Z) : list AuditLogEntry.t :=
  filter (fun e => (startTime <=? AuditLogEntry.timestamp e)
                   && (AuditLogEntry.timestamp e <=? endTime)) (logs l).

Definition clearLogs (l : Logger) : Logger := saveLogs (mkLogger [] (stored l)).

(** [loadLogs()]: [globalState.get('auditLogs')], if any. *)
Definition loadLogs (l : Logger) : Logger :=
  match stored l with
  | Some xs => mkLogger xs (stored l)
  | None => l
  end.

(** [new AuditLogger(context, config)] over the stored value [s]. *)
Definition create (s : option (list AuditLogEntry.t)) : Logger := loadLogs (mkLogger [] s).

(** Calls of the logger's public mutators. *)
Inductive Op :=
| op_logToolExecution (fresh : string) (t : Z) (toolId parameters : string)
| op_logApproval (fresh : string) (t : Z) (requestId : string) (approved : bool)
    (action : ProposedAction.t) (comment : option string)
| op_logWorkflow (fresh : string) (t : Z) (workflowId workflowName status : string)
    (details : list (string * string))
| op_logError (fresh : string) (t : Z) (message : string) (stack : option string)
    (context : string)
| op_clearLogs.

Definition apply_op (l : Logger) (o : Op) : Logger :=
  match o with
  | op_logToolExecution f t i p => logToolExecution l f t i p
  | op_logApproval f t r b a c => logApproval l f t r b a c
  | op_logWorkflow f t i n s d => logWorkflow l f t i n s d
  | op_logError f t m s c => logError l f t m s c
  | op_clearLogs => clearLogs l
  end.

Definition apply_ops (l : Logger) (os : list Op) : Logger := fold_left apply_op os l.
End Audit.

(** ** [ApprovalManager] ([src/unnamed/part_009]) *)
Module ApprovalManager.

(** [x || 'unknown'] on a string: [''] is falsy. *)
Definition js_or_str (s d : string) : string := if String.eqb s "" then d else s.

(** The statement after [await this.hitlManager.requestApproval(...)]:
    [auditLogger.logApproval(action.type || 'unknown', approved, action)]. *)
Definition logDecision (l : Audit.Logger) (fresh : string) (t : Z)
    (action : ProposedAction.t) (approved : bool) : Audit.Logger :=
  Audit.logApproval l fresh t (js_or_str (ProposedAction.type action) "unknown")
    approved action None.

Definition getPendingApprovals (m : HITL.Manager) : list ApprovalRequest.t :=
  HITL.getPendingApprovals m.

Definition getApprovalHistory (l : Audit.Logger) : list Audit.AuditLogEntry.t :=
  Audit.getLogsByType l Audit.approval.

Record Stats := mkStats {
  total : nat;
  approved : nat;
  denied : nat;
  pending : nat;
  expired : nat
}.

Definition count_status (l : list ApprovalRequest.t) (s : ApprovalStatus) : nat :=
  length (filter (fun a => ApprovalStatus_eqb (ApprovalRequest.status a) s) l).

Definition getApprovalStats (m : HITL.Manager) : Stats :=
  let allApprovals := HITL.getAllApprovals m in
  mkStats (length allApprovals)
    (count_status allApprovals ap_approved)
    (count_status allApprovals ap_denied)
    (count_status allApprovals ap_pending)
    (count_status allApprovals ap_expired).
End ApprovalManager.

(** ** Workflow factories, [BaseAgent.executeWorkflow] and
    [CopilotAgent.processRequest] *)
Module Agent.
Import Engine.

Module AgentRequest.
(** [context : any] and the values of [metadata] are kept as text. *)
Record t := mk {
  id : string;
  prompt : string;
  context : string;
  metadata : list (string * string)
}.
End AgentRequest.

Module AgentResponse.
(** [metadata] as [processRequest] fills it: [{ iterations }]. *)
Record t := mk {
  success : bool;
  result : option WorkflowResult.t;
  error : option string;
  metadata : option (list (string * Z))
}.
End AgentResponse.

Section Agents.
Context {Wf : Type} `{Workflow Wf}.

(** [workflowFactories : Map<string, (request) => Workflow>] *)
Definition Factories := list (string * (AgentRequest.t -> Wf)).

Definition registerWorkflow (fs : Factories) (name : string)
    (factory : AgentRequest.t -> Wf) : Factories :=
  map_set fs name factory.

Definition createWorkflow (fs : Factories) (name : string) (request : AgentRequest.t)
    : option Wf :=
  match map_get fs name with
  | Some factory => Some (factory request)
  | None => None
  end.

Variables (eng : EngineEnv) (wid : string).

(** [BaseAgent.executeWorkflow(workflowName, request, stream?, token?)];
    the token is the one in the world. *)
Definition executeWorkflow (stream : bool) (fs : Factories) (workflowName : string)
    (request : AgentRequest.t) (w : World) : ExecResult * World :=
  match createWorkflow fs workflowName request with
  | None => (exec_throw ("Workflow not found: " ++ workflowName), w)
  | Some workflow => Engine.executeWorkflow eng stream wid workflow w
  end.

(** [formatError(error)] on an [Error] with this message. *)
Definition formatError (message : string) : string := "Error: " ++ message.

(** [CopilotAgent.processRequest(request)]: no stream and no token are
    passed. [None] stands for a loop that did not finish within its fuel. *)
Definition processRequest (fs : Factories) (request : AgentRequest.t) (w : World)
    : option AgentResponse.t * World :=
  let '(res, w) := executeWorkflow false fs "default" request (set_token w None) in
  match res with
  | exec_return r =>
      (Some (AgentResponse.mk (WorkflowResult.success r) (Some r) None
               (Some [("iterations", WorkflowResult.iterations r)])), w)
  | exec_throw msg => (Some (AgentResponse.mk false None (Some (formatError msg)) None), w)
  | exec_out_of_fuel => (None, w)
  end.
End Agents.

(** The number of [think] calls in a list of calls. *)
Definition think_calls (l : list Call) : nat :=
  length (filter (fun c => match c with c_think => true | _ => false end) l).
End Agent.

Module AgentProps.
Import Engine EngineProps Agent.

(** What the loop of an execution [wid] guarantees about its iteration
    counter [j], when [t0] calls of [think] had been made before it
    started: the state is in [activeWorkflows], [0 <= j <= max(0, cap)],
    [think] has been called [j] more times, the loop did not run out of
    fuel, and a returned result reports [j] iterations. *)
Definition count_post (eng : EngineEnv) (wid : string) (t0 : nat) (x : LoopExit * World) : Prop :=
  exists j, Live wid (snd x) j /\ (0 <= j <= Z.max 0 (maxIterations eng)) /\
    (think_calls (calls_of (trace (snd x))) = t0 + Z.to_nat j)%nat /\
    fst x <> loop_out_of_fuel /\
    (forall r, fst x = loop_return r -> WorkflowResult.iterations r = j).
End AgentProps.

(* ==================================================================== *)
(** * Proofs *)
(* ==================================================================== *)

(** ** Association-list lemmas *)
Section JsMapFacts.
Context {V : Type}.

Lemma map_get_set (m : list (string * V)) k v k' :
  map_get (map_set m k v) k' = if String.eqb k' k then Some v else map_get m k'.
Proof.
  induction m as [|[k0 v0] t IH]; simpl.
  - reflexivity.
  - destruct (String.eqb_spec k k0) as [->|Hne]; simpl.
    + destruct (String.eqb k' k0); reflexivity.
    + rewrite IH. destruct (String.eqb_spec k' k0) as [->|]; [|reflexivity].
      destruct (String.eqb_spec k0 k); [congruence|reflexivity].
Qed.

Lemma map_get_delete (m : list (string * V)) k k' :
  map_get (map_delete m k) k' = if String.eqb k' k then None else map_get m k'.
Proof.
  unfold map_delete.
  induction m as [|[k0 v0] t IH]; simpl.
  - destruct (String.eqb k' k); reflexivity.
  - destruct (String.eqb_spec k0 k) as [->|Hne]; simpl.
    + rewrite IH. destruct (String.eqb k' k); reflexivity.
    + rewrite IH. destruct (String.eqb_spec k' k0) as [E1|E1];
        destruct (String.eqb_spec k' k) as [E2|E2]; try congruence; reflexivity.
Qed.

Lemma In_map_set (m : list (string * V)) k v kv :
  In kv (map_set m k v) -> In kv m \/ kv = (k, v).
Proof.
  induction m as [|[k0 v0] t IH]; simpl.
  - intros [H|[]]; auto.
  - destruct (String.eqb k k0); simpl.
    + intros [H|H]; auto.
    + intros [H|H]; auto. destruct (IH H); auto.
Qed.

Lemma In_map_delete (m : list (string * V)) k kv :
  In kv (map_delete m k) -> In kv m /\ fst kv <> k.
Proof.
  unfold map_delete. rewrite filter_In. intros [H1 H2].
  split; [exact H1|]. destruct (String.eqb_spec (fst kv) k); [discriminate|assumption].
Qed.

Lemma map_get_In (m : list (string * V)) k v :
  map_get m k = Some v -> In (k, v) m.
Proof.
  induction m as [|[k0 v0] t IH]; simpl; [discriminate|].
  destruct (String.eqb_spec k k0) as [->|]; intros H.
  - inversion H; subst; auto.
  - auto.
Qed.
End JsMapFacts.

Module HITLFacts.
Import HITL.

(** A rule that matches and auto-approves makes [shouldAutoApprove]
    true, wherever it sits in the list. *)
Lemma shouldAutoApprove_rules_In rules action rule :
  In rule rules ->
  orb (GovernanceRule.pattern rule (ProposedAction.type action))
      (GovernanceRule.pattern rule (ProposedAction.description action)) = true ->
  GovernanceRule.autoApprove rule = true ->
  shouldAutoApprove_rules rules action = true.
Proof.
  induction rules as [|x t IH]; simpl; [contradiction|].
  intros [->|Hin] Hm Ha.
  - rewrite Hm, Ha. reflexivity.
  - specialize (IH Hin Hm Ha).
    destruct (orb (GovernanceRule.pattern x (ProposedAction.type action))
                  (GovernanceRule.pattern x (ProposedAction.description action)));
      [destruct (GovernanceRule.autoApprove x)|]; auto.
Qed.

(** C5: a proposed action matching an auto-approve rule is approved at
    once: the promise is already settled to [true] and the manager is
    left exactly as it was — no request object, no pending entry, no
    timer, no handler and no dialog. *)
Theorem requestApproval_auto_approved (m : Manager) (fresh : string)
    (action : ProposedAction.t) (timeout : option Z) (rule : GovernanceRule.t) :
  In rule (governanceRules m) ->
  orb (GovernanceRule.pattern rule (ProposedAction.type action))
      (GovernanceRule.pattern rule (ProposedAction.description action)) = true ->
  GovernanceRule.autoApprove rule = true ->
  requestApproval m fresh action timeout = (settled_now true, m).
Proof.
  intros Hin Hm Ha. unfold requestApproval, shouldAutoApprove.
  rewrite (shouldAutoApprove_rules_In _ _ _ Hin Hm Ha). reflexivity.
Qed.

(** *** The pending request survives every event that does not settle it *)

Lemma find_timer_In l h t : find_timer l h = Some t -> In t l /\ handle t = h.
Proof.
  induction l as [|t0 l IH]; simpl; [discriminate|].
  destruct (Nat.eqb_spec (handle t0) h) as [E|E].
  - intros H; inversion H; subst; auto.
  - intros H; destruct (IH H); auto.
Qed.

Lemma find_timer_filter l h h' :
  h' <> h ->
  find_timer (filter (fun t => negb (Nat.eqb (handle t) h')) l) h = find_timer l h.
Proof.
  intros Hne. induction l as [|t0 l IH]; simpl; [reflexivity|].
  destruct (Nat.eqb_spec (handle t0) h') as [E|E]; simpl.
  - destruct (Nat.eqb_spec (handle t0) h); [congruence|exact IH].
  - destruct (Nat.eqb (handle t0) h); [reflexivity|exact IH].
Qed.

Lemma find_timer_app l l' h t :
  find_timer l h = Some t -> find_timer (l ++ l')%list h = Some t.
Proof.
  induction l as [|t0 l IH]; simpl; [discriminate|].
  destruct (Nat.eqb (handle t0) h); auto.
Qed.

Lemma find_timer_none l h :
  (forall t, In t l -> handle t <> h) -> find_timer l h = None.
Proof.
  induction l as [|t0 l IH]; simpl; intros Hl; [reflexivity|].
  destruct (Nat.eqb_spec (handle t0) h) as [E|E].
  - exfalso; exact (Hl t0 (or_introl eq_refl) E).
  - apply IH; auto.
Qed.

Lemma find_timer_app_none l l' h :
  find_timer l h = None -> find_timer (l ++ l')%list h = find_timer l' h.
Proof.
  induction l as [|t0 l IH]; simpl; [reflexivity|].
  destruct (Nat.eqb (handle t0) h); [discriminate|exact IH].
Qed.

Lemma resolutions_push m q b r :
  resolutions_of (push_resolved m (q, b)) r
  = (resolutions_of m r ++ (if String.eqb q r then [b] else []))%list.
Proof.
  unfold resolutions_of; simpl. rewrite filter_app, map_app. simpl.
  destruct (String.eqb q r); reflexivity.
Qed.

Lemma first_resolution_last l r b :
  map snd (filter (fun p => String.eqb (fst p) r) l) = [] ->
  first_resolution (l ++ [(r, b)])%list r = Some b.
Proof.
  induction l as [|[q c] l IH]; simpl.
  - rewrite String.eqb_refl. reflexivity.
  - destruct (String.eqb_spec q r) as [->|Hne]; simpl; [discriminate|].
    intros H. destruct (String.eqb_spec r q); [congruence|]. exact (IH H).
Qed.

Section Unsettled.
Variables (r : string) (h : nat) (d : Z).

Local Ltac keep U := destruct U; constructor; simpl; auto.

Lemma U_update m q f :
  q <> r -> (forall o, ApprovalRequest.id (f o) = ApprovalRequest.id o) ->
  Unsettled r h d m -> Unsettled r h d (update_request m q f).
Proof.
  intros Hq Hf U. unfold update_request.
  destruct (map_get (heap m) q) as [o|] eqn:E; [|exact U].
  keep U.
  - rewrite map_get_set. destruct (String.eqb_spec r q); [congruence|assumption].
  - intros k o' Hin. destruct (In_map_set _ _ _ _ Hin) as [H|H]; [eauto|].
    inversion H; subst. rewrite Hf. eapply u_ids0, map_get_In, E.
Qed.

Lemma U_clear m h' : h' <> h -> Unsettled r h d m -> Unsettled r h d (clearTimeout m h').
Proof.
  intros Hh U. unfold clearTimeout. keep U.
  - rewrite find_timer_filter; assumption.
  - intros t Hin. apply filter_In in Hin. apply u_others0, Hin.
Qed.

Lemma U_push_resolved m q b :
  q <> r -> Unsettled r h d m -> Unsettled r h d (push_resolved m (q, b)).
Proof.
  intros Hq U. keep U. rewrite resolutions_push, u_unresolved0.
  destruct (String.eqb_spec q r); [congruence|reflexivity].
Qed.

Lemma U_handlers_delete m q :
  q <> r -> Unsettled r h d m ->
  Unsettled r h d (set_handlers m (map_delete (approvalHandlers m) q)).
Proof.
  intros Hq U. keep U.
  - rewrite map_get_delete. destruct (String.eqb_spec r q); [congruence|assumption].
  - intros kv Hin. apply In_map_delete in Hin. apply u_handles0, Hin.
Qed.

Lemma U_handlers_set m q v :
  q <> r -> v <> h -> Unsettled r h d m ->
  Unsettled r h d (set_handlers m (map_set (approvalHandlers m) q v)).
Proof.
  intros Hq Hv U. keep U.
  - rewrite map_get_set. destruct (String.eqb_spec r q); [congruence|assumption].
  - intros kv Hin. destruct (In_map_set _ _ _ _ Hin) as [H|H]; [auto|subst; simpl; auto].
Qed.

Lemma U_pending_set m q :
  q <> r -> Unsettled r h d m ->
  Unsettled r h d (set_pending m (map_set (pendingApprovals m) q q)).
Proof.
  intros Hq U. keep U.
  - rewrite map_get_set. destruct (String.eqb_spec r q); [congruence|assumption].
  - intros k v Hin. destruct (In_map_set _ _ _ _ Hin) as [H|H]; [eauto|congruence].
Qed.

Lemma U_pending_delete m q :
  q <> r -> Unsettled r h d m ->
  Unsettled r h d (set_pending m (map_delete (pendingApprovals m) q)).
Proof.
  intros Hq U. keep U.
  - rewrite map_get_delete. destruct (String.eqb_spec r q); [congruence|assumption].
  - intros k v Hin. apply In_map_delete in Hin. destruct Hin; eauto.
Qed.

Lemma U_heap_set m q o :
  q <> r -> ApprovalRequest.id o = q -> Unsettled r h d m ->
  Unsettled r h d (set_heap m (map_set (heap m) q o)).
Proof.
  intros Hq Ho U. keep U.
  - rewrite map_get_set. destruct (String.eqb_spec r q); [congruence|assumption].
  - intros k o' Hin. destruct (In_map_set _ _ _ _ Hin) as [H|H]; [eauto|congruence].
Qed.

Lemma U_setTimeout m cb ms :
  cb_touches r cb = false -> Unsettled r h d m ->
  Unsettled r h d (snd (setTimeout m cb ms)).
Proof.
  intros Hcb U. unfold setTimeout. keep U.
  - apply find_timer_app; assumption.
  - intros t Hin. apply in_app_or in Hin. destruct Hin as [Hin|[<-|[]]]; auto.
Qed.

Lemma U_dialog m x : Unsettled r h d m -> Unsettled r h d (push_dialog m x).
Proof. intros U; keep U. Qed.

Lemma U_rules m x : Unsettled r h d m -> Unsettled r h d (set_rules m x).
Proof. intros U; keep U. Qed.

Lemma U_now m x : Unsettled r h d m -> Unsettled r h d (set_now m x).
Proof. intros U; keep U. Qed.

Lemma U_key_other m q r' :
  Unsettled r h d m -> q <> r -> map_get (pendingApprovals m) q = Some r' -> r' <> r.
Proof.
  intros U Hq E. apply map_get_In in E. apply (u_keys _ _ _ _ U) in E. congruence.
Qed.

Lemma U_handle_other m q h' :
  Unsettled r h d m -> q <> r -> map_get (approvalHandlers m) q = Some h' -> h' <> h.
Proof.
  intros U Hq E. apply map_get_In in E. exact (u_handles _ _ _ _ U _ E Hq).
Qed.

Create HintDb unsettled.
Local Hint Resolve U_update U_clear U_push_resolved U_handlers_delete U_handlers_set
  U_pending_set U_pending_delete U_heap_set U_setTimeout U_dialog U_rules U_now : unsettled.

Lemma U_requestApproval m q a t :
  q <> r -> Unsettled r h d m -> Unsettled r h d (snd (requestApproval m q a t)).
Proof.
  intros Hq U. unfold requestApproval.
  destruct (shouldAutoApprove m a); [exact U|].
  destruct (shouldAutoDeny m a); [exact U|].
  unfold setTimeout; cbn [snd].
  apply U_dialog.
  set (m1 := set_pending _ _).
  assert (U1 : Unsettled r h d m1) by (apply U_pending_set; auto; apply U_heap_set; auto).
  apply (U_handlers_set (mkManager _ _ _ _ _ _ _ _ _ _) q (nextHandle m1) Hq).
  - pose proof (u_next _ _ _ _ U1). lia.
  - apply (U_setTimeout m1 (cb_expire q) (timeoutMs_of m t)); [|exact U1].
    simpl. destruct (String.eqb_spec q r); congruence.
Qed.

Lemma U_handleApproval m q b c :
  q <> r -> Unsettled r h d m -> Unsettled r h d (handleApproval m q b c).
Proof.
  intros Hq U. unfold handleApproval.
  destruct (map_get (pendingApprovals m) q) as [r'|] eqn:E; [|exact U].
  pose proof (U_key_other _ _ _ U Hq E) as Hr'.
  assert (U1 : Unsettled r h d (update_request m r' (fun o =>
                 ApprovalRequest.set_response
                   (ApprovalRequest.set_status o (if b then ap_approved else ap_denied)) c)))
    by (apply U_update; auto).
  apply U_setTimeout; [simpl; destruct (String.eqb_spec q r); congruence|].
  destruct (map_get (approvalHandlers _) q) as [h'|] eqn:Eh; [|exact U1].
  pose proof (U_handle_other _ _ _ U1 Hq Eh).
  apply U_handlers_delete; auto. apply U_push_resolved; auto. apply U_clear; auto.
Qed.

Lemma U_cancelApproval m q :
  q <> r -> Unsettled r h d m -> Unsettled r h d (snd (cancelApproval m q)).
Proof.
  intros Hq U. unfold cancelApproval.
  destruct (map_get (pendingApprovals m) q) as [r'|] eqn:E; [|exact U].
  pose proof (U_key_other _ _ _ U Hq E) as Hr'.
  destruct (map_get (heap m) r') as [o|]; [|exact U].
  destruct (negb _); [exact U|]. cbn [snd].
  apply U_pending_delete; auto.
  assert (U1 : Unsettled r h d (update_request m r' (fun o =>
                 ApprovalRequest.set_response
                   (ApprovalRequest.set_status o ap_denied) (Some "Cancelled"))))
    by (apply U_update; auto).
  destruct (map_get (approvalHandlers _) q) as [h'|] eqn:Eh; [|exact U1].
  pose proof (U_handle_other _ _ _ U1 Hq Eh).
  apply U_handlers_delete; auto. apply U_push_resolved; auto. apply U_clear; auto.
Qed.

Lemma U_fire m h' : h' <> h -> Unsettled r h d m -> Unsettled r h d (fire m h').
Proof.
  intros Hh U. unfold fire.
  destruct (find_timer (timers m) h') as [t|] eqn:E; [|exact U].
  destruct (find_timer_In _ _ _ E) as [Hin Ht].
  assert (Hcb : cb_touches r (callback t) = false)
    by (apply (u_others _ _ _ _ U); congruence).
  assert (U1 : Unsettled r h d (clearTimeout m h')) by auto with unsettled.
  destruct (callback t) as [q|q|q]; simpl in Hcb; cbn [run_callback].
  - assert (q <> r) by (destruct (String.eqb_spec q r); congruence).
    apply U_push_resolved; auto. apply U_handlers_delete; auto.
    apply U_pending_delete; auto. apply U_update; auto.
  - assert (q <> r) by (destruct (String.eqb_spec q r); congruence).
    apply U_pending_delete; auto.
  - apply U_dialog; auto.
Qed.

Lemma U_step m e :
  settles r h e = false -> Unsettled r h d m -> Unsettled r h d (step m e).
Proof.
  intros He U. destruct e as [q a t|q b c|q ans|q| |rule|rid|h'|dt]; simpl in He |- *.
  - apply U_requestApproval; auto. destruct (String.eqb_spec q r); congruence.
  - apply U_handleApproval; auto. destruct (String.eqb_spec q r); congruence.
  - unfold dialogAnswer.
    destruct (is_answer ans "View Details") eqn:Ev.
    + apply U_setTimeout; auto.
    + rewrite andb_true_r in He.
      assert (q <> r) by (destruct (String.eqb_spec q r); congruence).
      destruct (orb _ _); apply U_handleApproval; auto.
  - apply U_cancelApproval; auto. destruct (String.eqb_spec q r); congruence.
  - discriminate.
  - unfold addRule. auto with unsettled.
  - unfold removeRule. destruct (findIndex_rule _ _); simpl; auto with unsettled.
  - apply U_fire; auto. destruct (Nat.eqb_spec h' h); congruence.
  - auto with unsettled.
Qed.

Lemma U_run m evs :
  Forall (fun e => settles r h e = false) evs ->
  Unsettled r h d m -> Unsettled r h d (run m evs).
Proof.
  unfold run. revert m. induction evs as [|e evs IH]; simpl; intros m Hall U.
  - exact U.
  - inversion Hall; subst. apply IH; auto. apply U_step; auto.
Qed.

End Unsettled.

Lemma U_after_request m r action timeout :
  gate_wf m -> fresh_for r m -> shouldAutoApprove m action = false ->
  Unsettled r (nextHandle m) (now m + timeoutMs_of m timeout)
    (snd (requestApproval m r action timeout)).
Proof.
  intros [Wt Wh Wk Wi] [Fr Ft] Ha. unfold requestApproval. rewrite Ha.
  unfold shouldAutoDeny. cbn.
  constructor; cbn.
  - rewrite map_get_set, String.eqb_refl. reflexivity.
  - rewrite map_get_set, String.eqb_refl. eexists; split; reflexivity.
  - rewrite map_get_set, String.eqb_refl. reflexivity.
  - rewrite find_timer_app_none.
    + simpl. rewrite Nat.eqb_refl. reflexivity.
    + apply find_timer_none. intros t Hin E. specialize (Wt t Hin). lia.
  - intros t Hin Hne. apply in_app_or in Hin. destruct Hin as [Hin|[<-|[]]].
    + apply Ft, Hin.
    + simpl in Hne. congruence.
  - intros kv Hin Hne. destruct (In_map_set _ _ _ _ Hin) as [H|H].
    + specialize (Wh kv H). lia.
    + subst. simpl in Hne. congruence.
  - lia.
  - exact Fr.
  - intros k v Hin. destruct (In_map_set _ _ _ _ Hin) as [H|H]; [eauto|congruence].
  - intros k o Hin. destruct (In_map_set _ _ _ _ Hin) as [H|H]; [eauto|].
    inversion H; reflexivity.
Qed.

(** C8: a request whose decision never arrives — no [handleApproval] or
    dialog decision for it, no [cancelApproval] of it, no [dispose] —
    keeps its timeout timer, due [timeoutMs] after its creation, where
    [timeoutMs] is [timeout || config.approvalTimeout || 30000]. When
    that timer fires, the promise of [requestApproval] settles to
    [false] (its first and only resolution), the request object's
    status is ['expired'], and [getPendingApprovals()] no longer lists
    it. Arbitrary other traffic (other requests, decisions, timers,
    rule changes, clock ticks) may happen in between. *)
Theorem requestApproval_timeout_expires (m : Manager) (r : string)
    (action : ProposedAction.t) (timeout : option Z) (evs : list Event) :
  gate_wf m -> fresh_for r m -> shouldAutoApprove m action = false ->
  Forall (fun e => settles r (nextHandle m) e = false) evs ->
  let m1 := run (snd (requestApproval m r action timeout)) evs in
  let m2 := fire m1 (nextHandle m) in
  fst (requestApproval m r action timeout) = awaiting r /\
  find_timer (timers m1) (nextHandle m)
    = Some (mkTimer (nextHandle m) (now m + timeoutMs_of m timeout) (cb_expire r)) /\
  first_resolution (resolved m2) r = Some false /\
  resolutions_of m2 r = [false] /\
  (exists o, map_get (heap m2) r = Some o /\ ApprovalRequest.status o = ap_expired) /\
  (forall o, In o (getPendingApprovals m2) -> ApprovalRequest.id o <> r).
Proof.
  intros Hwf Hfr Ha Hall m1 m2.
  pose proof (U_run _ _ _ _ _ Hall (U_after_request _ _ _ timeout Hwf Hfr Ha)) as U.
  fold m1 in U.
  destruct U as [Up [o [Ho Hos]] Uh Ut Uo Uhs Un Ur Uk Ui].
  split; [unfold requestApproval, shouldAutoDeny; rewrite Ha; reflexivity|].
  split; [exact Ut|].
  unfold m2, fire. rewrite Ut. cbn [callback run_callback].
  unfold update_request. cbn [heap clearTimeout set_timers]. rewrite Ho. cbn.
  split; [apply first_resolution_last, Ur|].
  split.
  { unfold resolutions_of in *. cbn. rewrite filter_app, map_app, Ur. cbn.
    rewrite String.eqb_refl. reflexivity. }
  split.
  { rewrite map_get_set, String.eqb_refl. eexists; split; reflexivity. }
  intros o' Hin. unfold getPendingApprovals, getAllApprovals in Hin. cbn in Hin.
  apply filter_In in Hin. destruct Hin as [Hin _].
  apply in_flat_map in Hin. destruct Hin as [[k v] [Hkv Hget]].
  apply In_map_delete in Hkv. destruct Hkv as [Hkv Hk]. cbn in Hk, Hget.
  pose proof (Uk _ _ Hkv) as <-.
  destruct (map_get _ k) as [o1|] eqn:E; [|destruct Hget].
  destruct Hget as [<-|[]].
  apply map_get_In, In_map_set in E. destruct E as [E|E].
  - rewrite (Ui _ _ E). exact Hk.
  - inversion E; congruence.
Qed.

End HITLFacts.

Module EngineFacts.
Import Engine EngineProps.

(** *** The live state of an execution *)
Section Live.
Variable wid : string.

Lemma Live_update w i f :
  (forall st, WorkflowState.iterations (f st) = WorkflowState.iterations st) ->
  Live wid w i -> forall wid', Live wid (update_state w wid' f) i.
Proof.
  intros Hf [st [E Ei]] wid'. unfold update_state.
  destruct (map_get (activeWorkflows w) wid') as [st'|] eqn:E'; [|exists st; auto].
  unfold Live, set_active; cbn [activeWorkflows]. rewrite map_get_set.
  destruct (String.eqb_spec wid wid') as [->|].
  - exists (f st'). rewrite E in E'. inversion E'; subst. auto.
  - exists st. auto.
Qed.

Lemma Live_record w i o : Live wid w i -> Live wid (record w o) i.
Proof. intros H; exact H. Qed.

Lemma Live_write w i wid' s b : Live wid w i -> Live wid (write_status w wid' s b) i.
Proof.
  intros H. unfold write_status. destruct (map_get _ wid'); [|exact H].
  apply Live_record, Live_update; auto.
Qed.

Lemma Live_cancelWorkflow w i wid' : Live wid w i -> Live wid (snd (cancelWorkflow w wid')) i.
Proof.
  intros H. unfold cancelWorkflow. destruct (map_get _ wid'); [|exact H]. simpl.
  apply Live_update; auto. apply Live_update; auto. apply Live_write; auto.
Qed.

Lemma Live_apply_envs w i evs : Live wid w i -> Live wid (apply_envs w evs) i.
Proof.
  unfold apply_envs. revert w. induction evs as [|e evs IH]; simpl; intros w H; [exact H|].
  apply IH. destruct e as [wid'|].
  - unfold apply_env. pose proof (Live_cancelWorkflow w i wid' H).
    destruct (cancelWorkflow w wid'). apply Live_record. exact H0.
  - simpl. destruct (token w); exact H.
Qed.

Lemma Live_incr w i :
  Live wid w i ->
  Live wid (update_state w wid (fun st =>
          WorkflowState.set_iterations st (WorkflowState.iterations st + 1))) (i + 1).
Proof.
  intros [st [E Ei]]. unfold Live, update_state. rewrite E.
  unfold set_active; cbn [activeWorkflows].
  exists (WorkflowState.set_iterations st (WorkflowState.iterations st + 1)).
  rewrite map_get_set, String.eqb_refl. simpl. split; [reflexivity|lia].
Qed.

Lemma Live_iterations w i : Live wid w i -> state_iterations wid w = i.
Proof. intros [st [E Ei]]. unfold state_iterations. rewrite E. exact Ei. Qed.

Context {Wf : Type} `{Workflow Wf} (eng : EngineEnv) (stream : bool).

Lemma Live_progress w i m : Live wid w i -> Live wid (progress stream w m) i.
Proof. unfold progress. destruct stream; auto using Live_record. Qed.

Lemma Live_markdown w i m : Live wid w i -> Live wid (markdown stream w m) i.
Proof. unfold markdown. destruct stream; auto using Live_record. Qed.

Lemma Live_start_phase w i n : Live wid w i -> Live wid (start_phase wid w n) i.
Proof. intros; apply Live_update; auto. Qed.

Lemma Live_complete_phase w i r : Live wid w i -> Live wid (complete_phase wid w r) i.
Proof.
  intros; apply Live_update; auto. intros st. destruct (WorkflowState.currentPhase st); auto.
Qed.

Lemma Live_set_error w i e : Live wid w i -> Live wid (set_error wid w e) i.
Proof. intros; apply Live_update; auto. Qed.
End Live.

Create HintDb live.
Hint Resolve Live_record Live_write Live_apply_envs Live_progress Live_markdown
  Live_start_phase Live_complete_phase Live_set_error : live.

(** *** The cancellation token *)
Lemma token_update w wid f : token (update_state w wid f) = token w.
Proof. unfold update_state. destruct (map_get _ wid); reflexivity. Qed.

Lemma token_write w wid s b : token (write_status w wid s b) = token w.
Proof. unfold write_status. destruct (map_get _ wid); [apply token_update|reflexivity]. Qed.

Lemma token_cancelWorkflow w wid : token (snd (cancelWorkflow w wid)) = token w.
Proof.
  unfold cancelWorkflow. destruct (map_get _ wid); [|reflexivity]. simpl.
  rewrite !token_update. apply token_write.
Qed.

Lemma token_apply_envs w evs :
  no_cancel evs -> isCancellationRequested (apply_envs w evs) = isCancellationRequested w.
Proof.
  unfold apply_envs, no_cancel. revert w.
  induction evs as [|e evs IH]; simpl; intros w Hn; [reflexivity|].
  rewrite IH by tauto. destruct e as [wid'|]; [|tauto].
  unfold apply_env, isCancellationRequested.
  pose proof (token_cancelWorkflow w wid') as T.
  destruct (cancelWorkflow w wid'). simpl in T |- *. rewrite T. reflexivity.
Qed.

(** *** The token is only cancelled by [token.cancel()] *)
Section NotCancelled.
Context {Wf : Type} `{Workflow Wf} (stream : bool) (wid : string).

Lemma nc_update w x f : not_cancelled w -> not_cancelled (update_state w x f).
Proof. unfold not_cancelled, isCancellationRequested. rewrite token_update. auto. Qed.

Lemma nc_record w o : not_cancelled w -> not_cancelled (record w o).
Proof. auto. Qed.

Lemma nc_write w x s b : not_cancelled w -> not_cancelled (write_status w x s b).
Proof. unfold not_cancelled, isCancellationRequested. rewrite token_write. auto. Qed.

Lemma nc_apply_envs w evs : no_cancel evs -> not_cancelled w -> not_cancelled (apply_envs w evs).
Proof. unfold not_cancelled. intros. rewrite token_apply_envs; auto. Qed.

Lemma nc_progress w m : not_cancelled w -> not_cancelled (progress stream w m).
Proof. unfold progress. destruct stream; auto using nc_record. Qed.

Lemma nc_markdown w m : not_cancelled w -> not_cancelled (markdown stream w m).
Proof. unfold markdown. destruct stream; auto using nc_record. Qed.

Lemma nc_start_phase w n : not_cancelled w -> not_cancelled (start_phase wid w n).
Proof. apply nc_update. Qed.

Lemma nc_complete_phase w r : not_cancelled w -> not_cancelled (complete_phase wid w r).
Proof. apply nc_update. Qed.

Lemma nc_set_error w e : not_cancelled w -> not_cancelled (set_error wid w e).
Proof. apply nc_update. Qed.
End NotCancelled.

Create HintDb nc.
Hint Resolve nc_update nc_record nc_write nc_apply_envs nc_progress nc_markdown
  nc_start_phase nc_complete_phase nc_set_error : nc.
Hint Resolve Live_incr : live.

Lemma maxIterations_pos eng :
  0 <= maxConcurrentWorkflows (config eng) -> 1 <= maxIterations eng.
Proof.
  unfold maxIterations, js_or_num. intros.
  destruct (Z.eqb_spec (maxConcurrentWorkflows (config eng)) 0); lia.
Qed.

(** Reduce the matches and [let]s exposed by a [destruct]. *)
Ltac reduce := cbv beta iota zeta.

(** *** Every [observe] asks for another iteration *)
Section AlwaysIterate.
Context {Wf : Type} `{Workflow Wf} (eng : EngineEnv) (stream : bool) (wid : string).
Hypothesis Hthink : forall s, quiet (think s).
Hypothesis Hact : forall s a, quiet (act s a).
Hypothesis Hobserve : forall s l,
  match observe s l with
  | Done (o, _) ev => Observations.requiresIteration o = true /\ no_cancel ev
  | Raise _ _ => False
  end.
Hypothesis Hrefine : forall s o, quiet (refine s o).
Hypothesis Hgate : forall w pa,
  match requestApproval eng w pa with
  | Done b ev => b = true /\ no_cancel ev
  | Raise _ _ => False
  end.

Lemma pass_iterates k cur w i :
  Live wid w i -> not_cancelled w ->
  exists cur' w', iteration eng stream wid k cur w = k cur' w' /\
                  Live wid w' (i + 1) /\ not_cancelled w'.
Proof.
  intros HL HN. unfold iteration, act_phase, after_observe.
  pose proof (Hthink cur) as T. destruct (think cur) as [[a c1] ev1|m ev1]; [|contradiction].
  reduce.
  assert (Hrest : forall w1, Live wid w1 (i + 1) -> not_cancelled w1 ->
    exists cur' w', act_phase stream wid k a c1 w1 = k cur' w' /\
                    Live wid w' (i + 1) /\ not_cancelled w').
  { intros w1 L1 N1. unfold act_phase, after_observe.
    pose proof (Hact c1 a) as A. destruct (act c1 a) as [[acts c2] ev2|m ev2]; [|contradiction].
    reduce.
    pose proof (Hobserve c2 acts) as O.
    destruct (observe c2 acts) as [[o c3] ev3|m ev3]; [|contradiction].
    destruct O as [Ro N3]. reduce. rewrite Ro. cbn [negb].
    pose proof (Hrefine c3 o) as R. destruct (refine c3 o) as [c4 ev4|m ev4]; [|contradiction].
    eexists _, _. split; [reflexivity|].
    split; [eauto 20 with live | eauto 20 with nc]. }
  destruct (andb _ _).
  - match goal with |- context [requestApproval eng ?W ?P] =>
      pose proof (Hgate W P) as G; destruct (requestApproval eng W P) as [b ev|m ev] end;
      [|contradiction].
    destruct G as [-> N]. reduce. cbn [negb].
    apply Hrest; [eauto 20 with live | eauto 20 with nc].
  - apply Hrest; [eauto 20 with live | eauto 20 with nc].
Qed.

Lemma loop_reaches_cap n cur w i :
  Live wid w i -> not_cancelled w -> 0 <= i <= maxIterations eng ->
  (Z.to_nat (maxIterations eng - i) < n)%nat ->
  exists w', loop eng stream wid n cur w = (loop_break, w') /\
             Live wid w' (maxIterations eng) /\ not_cancelled w'.
Proof.
  revert cur w i. induction n as [|n IH]; intros cur w i HL HN Hi Hn; [lia|].
  cbn [loop]. rewrite HN. rewrite (Live_iterations wid w i HL).
  destruct (Z.leb_spec (maxIterations eng) i).
  - exists w. repeat split; auto. replace (maxIterations eng) with i by lia. exact HL.
  - destruct (pass_iterates (loop eng stream wid n) cur w i HL HN) as (cur' & w' & -> & L' & N').
    apply (IH cur' w' (i + 1)); auto; lia.
Qed.
End AlwaysIterate.

(** The state object [executeWorkflow] creates. *)
Lemma Live_start wid name t (w0 : World) o :
  Live wid (record (set_active w0 (map_set (activeWorkflows w0) wid
              (WorkflowState.mk wid name thinking t None None 0 None))) o) 0.
Proof.
  unfold Live, record, set_active; cbn [activeWorkflows].
  rewrite map_get_set, String.eqb_refl. eexists; split; reflexivity.
Qed.

Lemma nc_start (w0 : World) x o : not_cancelled w0 -> not_cancelled (record (set_active w0 x) o).
Proof. auto. Qed.

(** C4: if no call throws, nobody cancels the token, approval is never
    denied and every [observe] asks for another iteration, then
    [executeWorkflow] returns after [maxConcurrentWorkflows || 5]
    iterations, with [success = false] and the feedback
    [Max iterations (cap) reached]. *)
Theorem executeWorkflow_max_iterations {Wf : Type} `{Workflow Wf}
    (eng : EngineEnv) (stream : bool) (wid : string) (workflow : Wf) (w0 : World) :
  0 <= maxConcurrentWorkflows (config eng) ->
  not_cancelled w0 ->
  (forall s, quiet (think s)) ->
  (forall s a, quiet (act s a)) ->
  (forall s l,
    match observe s l with
    | Done (o, _) ev => Observations.requiresIteration o = true /\ no_cancel ev
    | Raise _ _ => False
    end) ->
  (forall s o, quiet (refine s o)) ->
  (forall w pa,
    match requestApproval eng w pa with
    | Done b ev => b = true /\ no_cancel ev
    | Raise _ _ => False
    end) ->
  exists r w,
    executeWorkflow eng stream wid workflow w0 = (exec_return r, w) /\
    WorkflowResult.iterations r = js_or_num (maxConcurrentWorkflows (config eng)) 5 /\
    WorkflowResult.success r = false /\
    Observations.feedback (WorkflowResult.observations r) =
      "Max iterations (" ++ Z_to_string (js_or_num (maxConcurrentWorkflows (config eng)) 5)
      ++ ") reached".
Proof.
  intros Hcfg HN Hthink Hact Hobs Hrefine Hgate.
  pose proof (maxIterations_pos eng Hcfg) as Hpos.
  unfold executeWorkflow, executeWorkflowInternal. reduce.
  match goal with |- context [loop eng stream wid ?n workflow ?W] =>
    destruct (loop_reaches_cap eng stream wid Hthink Hact Hobs Hrefine Hgate n workflow W 0)
      as (w' & E & L & N);
      [apply Live_start | apply nc_start; exact HN | lia | lia | rewrite E] end.
  reduce. eexists _, _. split; [reflexivity|].
  unfold cap_result. cbn [WorkflowResult.iterations WorkflowResult.success
    WorkflowResult.observations Observations.feedback].
  rewrite (Live_iterations wid _ (maxIterations eng)) by (apply Live_write; exact L).
  unfold maxIterations. auto.
Qed.

(** *** The trace *)
Lemma trace_update w x f : trace (update_state w x f) = trace w.
Proof. unfold update_state. destruct (map_get _ x); reflexivity. Qed.

Lemma trace_write w x s b :
  trace (write_status w x s b) =
    match map_get (activeWorkflows w) x with
    | Some _ => (trace w ++ [o_status x s b])%list
    | None => trace w
    end.
Proof.
  unfold write_status. destruct (map_get _ x); [|reflexivity].
  unfold record; cbn [trace]. rewrite trace_update. reflexivity.
Qed.

Lemma calls_of_app l1 l2 : calls_of (l1 ++ l2) = (calls_of l1 ++ calls_of l2)%list.
Proof. apply flat_map_app. Qed.

Lemma calls_update w x f : calls_of (trace (update_state w x f)) = calls_of (trace w).
Proof. rewrite trace_update. reflexivity. Qed.

Lemma calls_write w x s b : calls_of (trace (write_status w x s b)) = calls_of (trace w).
Proof.
  rewrite trace_write. destruct (map_get _ x); [|reflexivity].
  rewrite calls_of_app, app_nil_r. reflexivity.
Qed.

Lemma calls_record_call w c : calls_of (trace (record w (o_call c))) = (calls_of (trace w) ++ [c])%list.
Proof. unfold record; cbn [trace]. rewrite calls_of_app. reflexivity. Qed.

Lemma calls_cancelWorkflow w x : calls_of (trace (snd (cancelWorkflow w x))) = calls_of (trace w).
Proof.
  unfold cancelWorkflow. destruct (map_get _ x); [|reflexivity]. cbn [snd].
  rewrite !calls_update. apply calls_write.
Qed.

Lemma calls_apply_envs w evs : calls_of (trace (apply_envs w evs)) = calls_of (trace w).
Proof.
  unfold apply_envs. revert w. induction evs as [|e evs IH]; intros w; [reflexivity|].
  cbn [fold_left]. rewrite IH. destruct e as [x|]; cbn [apply_env].
  - pose proof (calls_cancelWorkflow w x) as C. destruct (cancelWorkflow w x) as [b w1].
    unfold record; cbn [trace] in *. rewrite calls_of_app, app_nil_r. exact C.
  - destruct (token w); reflexivity.
Qed.

Section Calls.
Variables (stream : bool) (wid : string).

Lemma calls_progress w m : calls_of (trace (progress stream w m)) = calls_of (trace w).
Proof.
  unfold progress. destruct stream; [|reflexivity].
  unfold record; cbn [trace]. rewrite calls_of_app, app_nil_r. reflexivity.
Qed.

Lemma calls_markdown w m : calls_of (trace (markdown stream w m)) = calls_of (trace w).
Proof.
  unfold markdown. destruct stream; [|reflexivity].
  unfold record; cbn [trace]. rewrite calls_of_app, app_nil_r. reflexivity.
Qed.

Lemma calls_start_phase w n : calls_of (trace (start_phase wid w n)) = calls_of (trace w).
Proof. apply calls_update. Qed.

Lemma calls_complete_phase w r : calls_of (trace (complete_phase wid w r)) = calls_of (trace w).
Proof. apply calls_update. Qed.

Lemma calls_set_error w e : calls_of (trace (set_error wid w e)) = calls_of (trace w).
Proof. apply calls_update. Qed.
End Calls.

Ltac calls_simpl :=
  repeat first [ rewrite calls_update | rewrite calls_write | rewrite calls_record_call
               | rewrite calls_apply_envs | rewrite calls_progress | rewrite calls_markdown
               | rewrite calls_start_phase | rewrite calls_complete_phase
               | rewrite calls_set_error ].

Lemma Live_endTime wid w i x t :
  Live wid w i -> Live wid (update_state w x (fun st => WorkflowState.set_endTime st t)) i.
Proof. intros; apply Live_update; auto. Qed.

Lemma status_write wid w i s b :
  Live wid w i ->
  option_map WorkflowState.status (map_get (activeWorkflows (write_status w wid s b)) wid) = Some s.
Proof.
  intros [st [E _]]. unfold write_status, update_state. rewrite E.
  unfold record, set_active; cbn [activeWorkflows]. rewrite map_get_set, String.eqb_refl.
  reflexivity.
Qed.

(** C9: when the token is not cancelled at the start, the first [think],
    [act] and [observe] settle, approval (if asked) is granted and the
    first observations have [requiresIteration = false], [executeWorkflow]
    returns after one iteration with [success] taken from the
    observations, and the state ends [completed]. *)
Theorem executeWorkflow_single_iteration {Wf : Type} `{Workflow Wf}
    (eng : EngineEnv) (stream : bool) (wid : string) (s0 s1 s2 s3 : Wf)
    (a : Analysis.t) (acts : list ActionResult.t) (o : Observations.t)
    (ev1 ev2 ev3 : list EnvEvent) (w0 : World) :
  0 <= maxConcurrentWorkflows (config eng) ->
  not_cancelled w0 ->
  think s0 = Done (a, s1) ev1 ->
  (Analysis.requiresApproval a && negb (autoApproveReadOnly (config eng)) = true ->
     forall w, exists ev, requestApproval eng w (approval_action a) = Done true ev) ->
  act s1 a = Done (acts, s2) ev2 ->
  observe s2 acts = Done (o, s3) ev3 ->
  Observations.requiresIteration o = false ->
  exists w,
    executeWorkflow eng stream wid s0 w0 =
      (exec_return (WorkflowResult.mk (Observations.success o) a acts o 1), w) /\
    option_map WorkflowState.status (getWorkflowState w wid) = Some completed.
Proof.
  intros Hcfg HN Ht Hap Ha Ho Hi.
  pose proof (maxIterations_pos eng Hcfg) as Hpos.
  unfold executeWorkflow, executeWorkflowInternal. reduce. cbn [loop].
  rewrite (nc_start w0 _ _ HN).
  rewrite (Live_iterations wid _ 0) by apply Live_start.
  replace (maxIterations eng <=? 0) with false by (symmetry; apply Z.leb_gt; lia).
  unfold iteration, act_phase, after_observe. rewrite Ht. reduce.
  assert (Hrest : forall W, Live wid W 1 ->
    exists w, (let '(res, w) :=
      match act_phase stream wid (loop eng stream wid (Z.to_nat (maxIterations eng))) a s1 W with
      | (loop_return r, w) => (exec_return r, w)
      | (loop_throw m, w) => (exec_throw m, w)
      | (loop_break, w) => (exec_return (cap_result eng wid (write_status w wid completed by_loop)),
                             write_status w wid completed by_loop)
      | (loop_out_of_fuel, w) => (exec_out_of_fuel, w)
      end in
      let w := update_state w wid (fun st => WorkflowState.set_endTime st (Some (clock w))) in
      let w := write_status w wid completed by_finally in
      (res, set_deletions w (deletions w ++ [(clock w + 60000, wid)]))) =
      (exec_return (WorkflowResult.mk (Observations.success o) a acts o 1), w) /\
    option_map WorkflowState.status (getWorkflowState w wid) = Some completed).
  { intros W LW. unfold act_phase, after_observe. rewrite Ha. reduce. rewrite Ho. reduce.
    rewrite Hi. cbn [negb]. reduce.
    rewrite (Live_iterations wid _ 1) by (apply Live_write; eauto 20 with live).
    eexists. split; [reflexivity|].
    unfold getWorkflowState, set_deletions; cbn [activeWorkflows].
    eapply status_write. apply Live_endTime. apply Live_write. eauto 20 with live. }
  assert (L1 : forall o', Live wid (record (progress stream (start_phase wid (write_status
    (update_state (record (set_active w0 (map_set (activeWorkflows w0) wid
       (WorkflowState.mk wid (wf_name s0) thinking (clock w0) None None 0 None)))
       (o_status wid thinking by_execute)) wid
       (fun st => WorkflowState.set_iterations st (WorkflowState.iterations st + 1)))
    wid thinking by_loop) ph_think) "Thinking...") o') 1).
  { intros o'. change 1 with (0 + 1). eauto 20 using Live_start with live. }
  destruct (andb _ _) eqn:Eb.
  - match goal with |- context [requestApproval eng ?W ?P] =>
      destruct (Hap eq_refl W) as [ev E]; rewrite E end.
    reduce. cbn [negb]. apply Hrest. eauto 20 with live.
  - apply Hrest. eauto 20 with live.
Qed.

(** C3: a pass of the loop whose analysis requires approval, with
    [autoApproveReadOnly = false] and a gate that denies, returns the
    denial result with no actions and the iteration count so far; it calls
    neither [act] nor [observe]. The loop returns the value of its last
    pass, so this is what [executeWorkflow] returns. *)
Theorem loop_pass_denied {Wf : Type} `{Workflow Wf}
    (eng : EngineEnv) (stream : bool) (wid : string) (fuel : nat) (cur c1 : Wf)
    (a : Analysis.t) (ev1 : list EnvEvent) (w : World) (i : Z) :
  not_cancelled w -> Live wid w i -> i < maxIterations eng ->
  think cur = Done (a, c1) ev1 ->
  Analysis.requiresApproval a = true ->
  autoApproveReadOnly (config eng) = false ->
  (forall w', exists ev, requestApproval eng w' (approval_action a) = Done false ev) ->
  exists w',
    loop eng stream wid (S fuel) cur w =
      (loop_return (WorkflowResult.mk false a []
         (Observations.mk false false "Action denied by user" None) (i + 1)), w') /\
    calls_of (trace w') = (calls_of (trace w) ++ [c_think; c_approval (approval_action a)])%list.
Proof.
  intros HN HL Hlt Ht Hra Hauto Hgate.
  cbn [loop]. rewrite HN, (Live_iterations wid w i HL).
  replace (maxIterations eng <=? i) with false by (symmetry; apply Z.leb_gt; lia).
  unfold iteration. rewrite Ht. reduce. rewrite Hra, Hauto. cbn [andb negb]. reduce.
  match goal with |- context [requestApproval eng ?W ?P] =>
    destruct (Hgate W) as [ev E]; rewrite E end.
  reduce. cbn [negb]. reduce.
  eexists. split.
  - unfold denied_result. rewrite (Live_iterations wid _ (i + 1)); [reflexivity|].
    apply Live_set_error, Live_write. eauto 20 with live.
  - calls_simpl. rewrite <- app_assoc. reflexivity.
Qed.

(** C10: when the loop ends with [break] at the iteration cap, the result
    carries the fallback analysis and an empty actions list. *)
Theorem executeWorkflowInternal_cap_fallback {Wf : Type} `{Workflow Wf}
    (eng : EngineEnv) (stream : bool) (wid : string) (cur : Wf) (w : World) :
  fst (loop eng stream wid (S (Z.to_nat (maxIterations eng))) cur w) = loop_break ->
  exists r w',
    executeWorkflowInternal eng stream wid cur w = (exec_return r, w') /\
    WorkflowResult.analysis r = fallback_analysis /\
    WorkflowResult.actions r = [] /\
    Observations.feedback (WorkflowResult.observations r) =
      "Max iterations (" ++ Z_to_string (maxIterations eng) ++ ") reached".
Proof.
  unfold executeWorkflowInternal.
  destruct (loop eng stream wid (S (Z.to_nat (maxIterations eng))) cur w) as [x w1].
  cbn [fst]. intros ->. eexists _, _. split; [reflexivity|].
  unfold cap_result. cbn [WorkflowResult.analysis WorkflowResult.actions
    WorkflowResult.observations Observations.feedback].
  destruct (map_get _ wid) as [st|]; [|auto].
  destruct (WorkflowState.currentPhase st) as [ph|]; [|auto].
  destruct (WorkflowPhase.result ph) as [[]|]; auto.
Qed.

(** *** The statuses assigned by [executeWorkflow] and its loop *)
Lemma own_app wid l1 l2 :
  own_statuses wid (l1 ++ l2) = (own_statuses wid l1 ++ own_statuses wid l2)%list.
Proof. apply flat_map_app. Qed.

Lemma chain_snoc l a b :
  chain_ok (l ++ [a]) = true -> allowed_step a b = true -> chain_ok ((l ++ [a]) ++ [b]) = true.
Proof.
  rewrite <- app_assoc. cbn [app].
  induction l as [|x l IH]; intros Hc Hab.
  - cbn. rewrite Hab. reflexivity.
  - destruct l as [|y l].
    + cbn in *. rewrite Bool.andb_true_r in Hc. rewrite Hc, Hab. reflexivity.
    + cbn [app chain_ok] in *. apply andb_true_iff in Hc as [H1 H2].
      rewrite H1. apply IH; assumption.
Qed.

Lemma own_cancelWorkflow wid w x :
  own_statuses wid (trace (snd (cancelWorkflow w x))) = own_statuses wid (trace w).
Proof.
  unfold cancelWorkflow. destruct (map_get _ x); [|reflexivity]. cbn [snd].
  rewrite !trace_update, trace_write. destruct (map_get _ x); [|reflexivity].
  rewrite own_app. cbn. rewrite Bool.andb_false_r, app_nil_r. reflexivity.
Qed.

Lemma own_apply_envs wid w evs :
  own_statuses wid (trace (apply_envs w evs)) = own_statuses wid (trace w).
Proof.
  unfold apply_envs. revert w. induction evs as [|e evs IH]; intros w; [reflexivity|].
  cbn [fold_left]. rewrite IH. destruct e as [x|]; cbn [apply_env].
  - pose proof (own_cancelWorkflow wid w x) as C. destruct (cancelWorkflow w x) as [b w1].
    unfold record; cbn [trace] in *. rewrite own_app, app_nil_r. exact C.
  - destruct (token w); reflexivity.
Qed.

Section Chain.
Variables (stream : bool) (wid : string).

Lemma ca_step w w' a :
  chain_at wid w a -> (forall i, Live wid w i -> Live wid w' i) ->
  own_statuses wid (trace w') = own_statuses wid (trace w) -> chain_at wid w' a.
Proof. intros [[i L] C] HL HO. split; [eauto|]. rewrite HO. exact C. Qed.

Lemma ca_record w o a :
  own_statuses wid [o] = [] -> chain_at wid w a -> chain_at wid (record w o) a.
Proof.
  intros E C. apply (ca_step w); auto using Live_record.
  unfold record; cbn [trace]. rewrite own_app, E, app_nil_r. reflexivity.
Qed.

Lemma ca_update w f a :
  (forall st, WorkflowState.iterations (f st) = WorkflowState.iterations st) ->
  chain_at wid w a -> chain_at wid (update_state w wid f) a.
Proof.
  intros Hf C. apply (ca_step w); auto.
  - intros i L. apply Live_update; auto.
  - rewrite trace_update. reflexivity.
Qed.

Lemma ca_incr w a :
  chain_at wid w a ->
  chain_at wid (update_state w wid (fun st =>
    WorkflowState.set_iterations st (WorkflowState.iterations st + 1))) a.
Proof.
  intros [[i L] C]. split; [exists (i + 1); apply Live_incr; exact L|].
  rewrite trace_update. exact C.
Qed.

Lemma ca_write w s a :
  chain_at wid w a -> allowed_step a s = true -> chain_at wid (write_status w wid s by_loop) s.
Proof.
  intros [[i L] [l [E C]]] Hs. split; [exists i; apply Live_write; exact L|].
  destruct L as [st [Est _]].
  rewrite trace_write, Est, own_app, E. cbn. rewrite String.eqb_refl. cbn.
  exists (l ++ [a])%list. split; [reflexivity|]. apply chain_snoc; assumption.
Qed.

Lemma ca_write_other w x s b a :
  own_writer b = false -> chain_at wid w a -> chain_at wid (write_status w x s b) a.
Proof.
  intros Hb C. apply (ca_step w); auto using Live_write.
  rewrite trace_write. destruct (map_get _ x); [|reflexivity].
  rewrite own_app. cbn. rewrite Hb, Bool.andb_false_r, app_nil_r. reflexivity.
Qed.

Lemma ca_apply_envs w evs a : chain_at wid w a -> chain_at wid (apply_envs w evs) a.
Proof. intros C. apply (ca_step w); auto using Live_apply_envs, own_apply_envs. Qed.

Lemma ca_progress w m a : chain_at wid w a -> chain_at wid (progress stream w m) a.
Proof. unfold progress. destruct stream; [apply ca_record; reflexivity | auto]. Qed.

Lemma ca_markdown w m a : chain_at wid w a -> chain_at wid (markdown stream w m) a.
Proof. unfold markdown. destruct stream; [apply ca_record; reflexivity | auto]. Qed.

Lemma ca_start_phase w n a : chain_at wid w a -> chain_at wid (start_phase wid w n) a.
Proof. apply ca_update; reflexivity. Qed.

Lemma ca_complete_phase w r a : chain_at wid w a -> chain_at wid (complete_phase wid w r) a.
Proof. apply ca_update. intros st. destruct (WorkflowState.currentPhase st); reflexivity. Qed.

Lemma ca_set_error w e a : chain_at wid w a -> chain_at wid (set_error wid w e) a.
Proof. apply ca_update; reflexivity. Qed.

Lemma ca_call w c a : chain_at wid w a -> chain_at wid (record w (o_call c)) a.
Proof. apply ca_record; reflexivity. Qed.
End Chain.

Create HintDb chain.
Hint Resolve ca_incr ca_write ca_apply_envs ca_progress ca_markdown ca_start_phase
  ca_complete_phase ca_set_error ca_call : chain.
Hint Extern 1 (allowed_step _ _ = true) => reflexivity : chain.

Ltac no_break := cbn [fst]; let E := fresh in intros E; discriminate E.

Section ChainLoop.
Context {Wf : Type} `{Workflow Wf} (eng : EngineEnv) (stream : bool) (wid : string).

Lemma pass_chain k cur w a :
  chain_at wid w a -> a = thinking \/ a = observing ->
  (forall cur' w', chain_at wid w' observing -> loop_post wid (k cur' w')) ->
  loop_post wid (iteration eng stream wid k cur w).
Proof.
  intros C Ha Hk.
  assert (C1 : chain_at wid (record (progress stream (start_phase wid (write_status
    (update_state w wid (fun st =>
       WorkflowState.set_iterations st (WorkflowState.iterations st + 1)))
    wid thinking by_loop) ph_think) "Thinking...") (o_call c_think)) thinking).
  { destruct Ha as [->| ->]; eauto 20 with chain. }
  assert (Hact : forall a' c w1, chain_at wid w1 thinking ->
            loop_post wid (act_phase stream wid k a' c w1)).
  { intros a' c w1 C2. unfold act_phase, after_observe.
    destruct (act c a') as [[acts c2] ev2|m ev2]; reduce.
    2: { eexists; split; [cbn [snd]; eauto 20 with chain | no_break]. }
    destruct (observe c2 acts) as [[o c3] ev3|m ev3]; reduce.
    2: { eexists; split; [cbn [snd]; eauto 20 with chain | no_break]. }
    destruct (negb (Observations.requiresIteration o)); reduce.
    - eexists; split; [cbn [snd]; eauto 20 with chain | no_break].
    - destruct (refine c3 o) as [c4 ev4|m ev4].
      + apply Hk. eauto 20 with chain.
      + eexists; split; [cbn [snd]; eauto 20 with chain | no_break]. }
  unfold iteration. destruct (think cur) as [[a' c1] ev1|m ev1]; reduce.
  2: { eexists; split; [cbn [snd]; eauto 20 with chain | no_break]. }
  destruct (andb _ _).
  - match goal with |- context [requestApproval eng ?W ?P] =>
      destruct (requestApproval eng W P) as [b ev|m ev] end; reduce.
    2: { eexists; split; [cbn [snd]; eauto 20 with chain | no_break]. }
    destruct b; cbn [negb]; reduce.
    + apply Hact. eauto 20 with chain.
    + eexists; split; [cbn [snd]; eauto 20 with chain | no_break].
  - apply Hact. eauto 20 with chain.
Qed.

Lemma loop_chain n cur w a :
  chain_at wid w a -> a = thinking \/ a = observing ->
  loop_post wid (loop eng stream wid n cur w).
Proof.
  revert cur w a. induction n as [|n IH]; intros cur w a C Ha.
  - exists a. split; auto.
  - cbn [loop]. destruct (isCancellationRequested w).
    + exists failed. split; [|no_break].
      apply ca_set_error. apply (ca_write wid w failed a C). destruct Ha as [-> | ->]; reflexivity.
    + destruct (maxIterations eng <=? state_iterations wid w).
      * exists a. split; auto.
      * apply pass_chain with (a := a); auto.
        intros cur' w' C'. apply (IH cur' w' observing); auto.
Qed.
End ChainLoop.

Lemma chain_at_ok wid w a : chain_at wid w a -> chain_ok (own_statuses wid (trace w)) = true.
Proof. intros [_ [l [-> C]]]. exact C. Qed.

Lemma chain_at_start wid name t (w0 : World) :
  own_statuses wid (trace w0) = [] ->
  chain_at wid (record (set_active w0 (map_set (activeWorkflows w0) wid
                 (WorkflowState.mk wid name thinking t None None 0 None)))
               (o_status wid thinking by_execute)) thinking.
Proof.
  intros E. split; [eexists; apply Live_start|].
  exists []. unfold record, set_active; cbn [trace]. rewrite own_app, E. cbn.
  rewrite String.eqb_refl. split; reflexivity.
Qed.

Lemma chain_finally wid w a :
  chain_at wid w a ->
  let w := update_state w wid (fun st => WorkflowState.set_endTime st (Some (clock w))) in
  let w := write_status w wid completed by_finally in
  chain_ok (own_statuses wid (trace (set_deletions w (deletions w ++ [(clock w + 60000, wid)])))) = true.
Proof.
  intros C. cbv zeta. unfold set_deletions; cbn [trace].
  eapply chain_at_ok. apply ca_write_other; [reflexivity|]. apply ca_update; [reflexivity|exact C].
Qed.

(** X22: the statuses [executeWorkflow] assigns itself before its
    [finally] block, the initial [thinking] and every assignment of its
    loop, go forward through thinking, acting, observing and a terminal
    status, except that a new iteration goes from [observing] back to
    [thinking]; none of these assignments follows a terminal one. The
    [completed] written by the [finally] block and the [failed] written by
    [cancelWorkflow] are not among them: the trace tags each write with its
    writer, and [own_statuses] keeps only those of [executeWorkflow] and its loop. *)
Theorem executeWorkflow_status_order {Wf : Type} `{Workflow Wf}
    (eng : EngineEnv) (stream : bool) (wid : string) (workflow : Wf) (w0 : World) :
  own_statuses wid (trace w0) = [] ->
  chain_ok (own_statuses wid (trace (snd (executeWorkflow eng stream wid workflow w0)))) = true.
Proof.
  intros E0. unfold executeWorkflow, executeWorkflowInternal. reduce.
  match goal with |- context [loop eng stream wid ?n workflow ?W] =>
    pose proof (loop_chain eng stream wid n workflow W thinking
                  (chain_at_start wid _ _ w0 E0) (or_introl eq_refl)) as P;
    destruct (loop eng stream wid n workflow W) as [x w1] end.
  destruct P as [b [Cb Hb]]. cbn [fst snd] in Cb, Hb.
  destruct x; reduce; cbn [snd]; try exact (chain_finally wid w1 b Cb).
  apply (chain_finally wid _ completed). apply (ca_write wid w1 completed b Cb).
  destruct (Hb eq_refl) as [-> | ->]; reflexivity.
Qed.

End EngineFacts.

(** ** Concrete runs *)
Module Runs.
Import Engine EngineProps Scenario EngineFacts.

(** C1: a status of [failed] is changed afterwards. In a run whose first
    action is denied, the loop sets [failed] with the error ["Action denied
    by user"], then the [finally] block writes [completed] over it. In a run
    whose first [act] is interrupted by [cancelWorkflow], the [failed] it
    sets is overwritten by the loop's [observing], and the run ends with
    status [completed] and the error ["Cancelled by user"]. *)
Theorem executeWorkflow_failed_overwritten :
  let runD := executeWorkflow (engine (cfg false 3) false) true "wf1"
                (script true 0 no_events) world0 in
  let runC := executeWorkflow (engine (cfg false 3) true) true "wf1"
                (script false 1 (cancel_in_first_act "wf1")) world0 in
  all_statuses "wf1" (trace (snd runD)) = [thinking; thinking; failed; completed] /\
  (exists st, getWorkflowState (snd runD) "wf1" = Some st /\
     WorkflowState.status st = completed /\ WorkflowState.error st = Some "Action denied by user") /\
  all_statuses "wf1" (trace (snd runC)) =
    [thinking; thinking; acting; failed; observing; thinking; acting; observing;
     completed; completed] /\
  (exists st, getWorkflowState (snd runC) "wf1" = Some st /\
     WorkflowState.status st = completed /\ WorkflowState.error st = Some "Cancelled by user").
Proof. vm_compute. repeat split; eexists; repeat split. Qed.

(** X22, on the run in which [cancelWorkflow] interrupts the first [act]. *)
Lemma executeWorkflow_status_order_witness :
  chain_ok (own_statuses "wf1" (trace (snd (executeWorkflow (engine (cfg false 3) true) true
    "wf1" (script false 1 (cancel_in_first_act "wf1")) world0)))) = true.
Proof. apply executeWorkflow_status_order. reflexivity. Defined.

(** C2: a second [handleApproval] on a request already approved
    rewrites its status and comment (approved, no comment, becomes
    denied with ["later"]) and schedules a second eviction timer; its
    promise is not settled again. *)
Theorem handleApproval_second_call_rewrites :
  let m1 := HITL.run gate0 [HITL.ev_request "r1" write_file None;
                            HITL.ev_handle "r1" true None] in
  let m2 := HITL.handleApproval m1 "r1" false (Some "later") in
  map (fun o => (ApprovalRequest.id o, ApprovalRequest.status o, ApprovalRequest.response o))
      (HITL.getAllApprovals m1) = [("r1", ap_approved, None)] /\
  map (fun o => (ApprovalRequest.id o, ApprovalRequest.status o, ApprovalRequest.response o))
      (HITL.getAllApprovals m2) = [("r1", ap_denied, Some "later")] /\
  HITL.resolutions_of m2 "r1" = [true] /\
  map HITL.callback (HITL.timers m1) = [HITL.cb_evict "r1"] /\
  map HITL.callback (HITL.timers m2) = [HITL.cb_evict "r1"; HITL.cb_evict "r1"].
Proof. vm_compute. repeat split. Qed.

(** C5, at [addRule({ priority: 100, autoApprove: true, pattern: /^read$/ })]. *)
Lemma requestApproval_auto_approved_witness :
  HITL.requestApproval (HITL.addRule gate0 read_rule) "r1" read_file None =
    (HITL.settled_now true, HITL.addRule gate0 read_rule).
Proof.
  apply (HITLFacts.requestApproval_auto_approved _ _ _ _ read_rule).
  - vm_compute. repeat (first [left; reflexivity | right]).
  - reflexivity.
  - reflexivity.
Defined.

(** C6: a request that expires, or is cancelled, leaves [getAllApprovals]
    at once; one that is decided stays there until its eviction timer. *)
Theorem settled_requests_leave_all_approvals :
  let m0 := HITL.run gate0 [HITL.ev_request "r1" write_file (Some 1000)] in
  map ApprovalRequest.id (HITL.getAllApprovals m0) = ["r1"] /\
  HITL.getAllApprovals (HITL.fire m0 1) = [] /\
  option_map ApprovalRequest.status (map_get (HITL.heap (HITL.fire m0 1)) "r1")
    = Some ap_expired /\
  fst (HITL.cancelApproval m0 "r1") = true /\
  HITL.getAllApprovals (snd (HITL.cancelApproval m0 "r1")) = [] /\
  map (fun o => (ApprovalRequest.id o, ApprovalRequest.status o))
      (HITL.getAllApprovals (HITL.handleApproval m0 "r1" true None)) = [("r1", ap_approved)].
Proof. vm_compute. repeat split. Qed.

(** C7: [cancelWorkflow("wf1")] returns [true] while the first [act] is
    awaited; the loop still calls [think] again and returns a successful
    result after two iterations instead of a cancellation error. *)
Theorem cancelWorkflow_not_detected :
  let run := executeWorkflow (engine (cfg false 3) true) true "wf1"
               (script false 1 (cancel_in_first_act "wf1")) world0 in
  In (o_cancel_result "wf1" true) (trace (snd run)) /\
  calls_of (trace (snd run)) =
    [c_think; c_act; c_observe; c_refine; c_think; c_act; c_observe] /\
  (exists r, fst run = exec_return r /\ WorkflowResult.success r = true /\
             WorkflowResult.iterations r = 2).
Proof.
  vm_compute. split; [tauto|]. split; [reflexivity|]. eexists. split; [reflexivity|].
  split; reflexivity.
Qed.

(** C8, for a request with a 1000ms timeout while only the clock moves. *)
Lemma requestApproval_timeout_expires_witness :
  let m := gate0 in
  let m1 := HITL.run (snd (HITL.requestApproval m "r1" write_file (Some 1000))) [HITL.ev_tick 1000] in
  let m2 := HITL.fire m1 (HITL.nextHandle m) in
  fst (HITL.requestApproval m "r1" write_file (Some 1000)) = HITL.awaiting "r1" /\
  HITL.find_timer (HITL.timers m1) (HITL.nextHandle m)
    = Some (HITL.mkTimer (HITL.nextHandle m) (HITL.now m + HITL.timeoutMs_of m (Some 1000))
              (HITL.cb_expire "r1")) /\
  HITL.first_resolution (HITL.resolved m2) "r1" = Some false /\
  HITL.resolutions_of m2 "r1" = [false] /\
  (exists o, map_get (HITL.heap m2) "r1" = Some o /\ ApprovalRequest.status o = ap_expired) /\
  (forall o, In o (HITL.getPendingApprovals m2) -> ApprovalRequest.id o <> "r1").
Proof.
  apply HITLFacts.requestApproval_timeout_expires.
  - constructor; vm_compute; intros; contradiction.
  - constructor; [reflexivity|]. vm_compute. intros; contradiction.
  - vm_compute. reflexivity.
  - constructor; [vm_compute; reflexivity | constructor].
Defined.

(** C3, at the first pass of a workflow whose plan requires approval. *)
Lemma loop_pass_denied_witness :
  exists w',
    loop (engine (cfg false 3) false) true "wf1" 3 (script true 0 no_events) world_wf1 =
      (loop_return (WorkflowResult.mk false (plan true) []
         (Observations.mk false false "Action denied by user" None) (0 + 1)), w') /\
    calls_of (trace w') =
      (calls_of (trace world_wf1) ++ [c_think; c_approval (approval_action (plan true))])%list.
Proof.
  apply (loop_pass_denied (engine (cfg false 3) false) true "wf1" 2
           (script true 0 no_events) (script true 0 no_events) (plan true) [] world_wf1 0).
  - reflexivity.
  - eexists; split; reflexivity.
  - vm_compute. reflexivity.
  - reflexivity.
  - reflexivity.
  - reflexivity.
  - intros w'. exists []. reflexivity.
Defined.

(** C4, with a cap of 3 and a workflow that always asks to iterate. *)
Lemma executeWorkflow_max_iterations_witness :
  exists r w,
    executeWorkflow (engine (cfg false 3) true) true "wf1" (mkLooper 0) world0 = (exec_return r, w) /\
    WorkflowResult.iterations r = js_or_num (maxConcurrentWorkflows (cfg false 3)) 5 /\
    WorkflowResult.success r = false /\
    Observations.feedback (WorkflowResult.observations r) =
      "Max iterations (" ++ Z_to_string (js_or_num (maxConcurrentWorkflows (cfg false 3)) 5)
      ++ ") reached".
Proof.
  apply (executeWorkflow_max_iterations (engine (cfg false 3) true) true "wf1" (mkLooper 0) world0).
  - vm_compute. discriminate.
  - reflexivity.
  - intros s. vm_compute. tauto.
  - intros s a. vm_compute. tauto.
  - intros s l. vm_compute. split; [reflexivity | tauto].
  - intros s o. vm_compute. tauto.
  - intros w pa. vm_compute. split; [reflexivity | tauto].
Defined.

(** C9, with a scripted workflow that succeeds at once. *)
Lemma executeWorkflow_single_iteration_witness :
  exists w,
    executeWorkflow (engine (cfg false 3) true) true "wf1" (script false 0 no_events) world0 =
      (exec_return (WorkflowResult.mk true (plan false) [step_done] (obs true false) 1), w) /\
    option_map WorkflowState.status (getWorkflowState w "wf1") = Some completed.
Proof.
  apply (executeWorkflow_single_iteration (engine (cfg false 3) true) true "wf1"
           (script false 0 no_events) (script false 0 no_events) (script false 0 no_events)
           (fst (script false 0 no_events), 1%nat) (plan false) [step_done] (obs true false)
           [] [] [] world0).
  - vm_compute. discriminate.
  - reflexivity.
  - reflexivity.
  - vm_compute. discriminate.
  - reflexivity.
  - reflexivity.
  - reflexivity.
Defined.

(** C10, with a cap of 3 and a workflow that iterates ten times. *)
Lemma executeWorkflowInternal_cap_fallback_witness :
  exists r w',
    executeWorkflowInternal (engine (cfg false 3) true) true "wf1"
      (script false 10 no_events) world_wf1 = (exec_return r, w') /\
    WorkflowResult.analysis r = fallback_analysis /\
    WorkflowResult.actions r = [] /\
    Observations.feedback (WorkflowResult.observations r) =
      "Max iterations (" ++ Z_to_string (maxIterations (engine (cfg false 3) true)) ++ ") reached".
Proof.
  apply executeWorkflowInternal_cap_fallback. vm_compute. reflexivity.
Defined.
End Runs.

(** ** Further properties of the governance manager *)
Module HITLExtra.
Import HITL HITLFacts.

Lemma map_get_In_some {V : Type} (m : list (string * V)) k v :
  In (k, v) m -> exists v', map_get m k = Some v'.
Proof.
  induction m as [|[k0 v0] t IH]; simpl; [contradiction|].
  intros [E|Hin].
  - inversion E; subst. rewrite String.eqb_refl. eauto.
  - destruct (String.eqb k k0); eauto.
Qed.

Lemma find_timer_filter_none l h p :
  find_timer l h = None -> find_timer (filter p l) h = None.
Proof.
  induction l as [|t l IH]; simpl; [reflexivity|].
  destruct (Nat.eqb (handle t) h) eqn:E; [discriminate|].
  intros H. destruct (p t); simpl; [rewrite E|]; auto.
Qed.

Lemma find_timer_cleared l h :
  find_timer (filter (fun t => negb (Nat.eqb (handle t) h)) l) h = None.
Proof.
  apply find_timer_none. intros t Hin. apply filter_In in Hin. destruct Hin as [_ E].
  destruct (Nat.eqb_spec (handle t) h); [discriminate|assumption].
Qed.

(** A request listed by [getAllApprovals] is the object stored under its
    own id, which is a key of [pendingApprovals]. *)
Lemma getAll_inv m o :
  (forall k v, In (k, v) (pendingApprovals m) -> k = v) ->
  (forall k o, In (k, o) (heap m) -> ApprovalRequest.id o = k) ->
  In o (getAllApprovals m) ->
  map_get (pendingApprovals m) (ApprovalRequest.id o) <> None /\
  map_get (heap m) (ApprovalRequest.id o) = Some o.
Proof.
  intros Hk Hi Hin. unfold getAllApprovals in Hin.
  apply in_flat_map in Hin. destruct Hin as [[k v] [Hkv Hget]]. cbn [snd] in Hget.
  pose proof (Hk _ _ Hkv) as <-.
  destruct (map_get (heap m) k) as [o1|] eqn:E; [|destruct Hget].
  destruct Hget as [<-|[]].
  rewrite (Hi _ _ (map_get_In _ _ _ E)). split; [|exact E].
  destruct (map_get_In_some _ _ _ Hkv) as [v' Hv']. congruence.
Qed.

Lemma getAll_without m r :
  (forall k v, In (k, v) (pendingApprovals m) -> k = v) ->
  (forall k o, In (k, o) (heap m) -> ApprovalRequest.id o = k) ->
  map_get (pendingApprovals m) r = None ->
  forall o, In o (getAllApprovals m) -> ApprovalRequest.id o <> r.
Proof.
  intros Hk Hi Hr o Hin E. destruct (getAll_inv m o Hk Hi Hin) as [H _].
  rewrite E in H. contradiction.
Qed.

Lemma ids_map_set (hp : list (string * ApprovalRequest.t)) r o :
  (forall k o, In (k, o) hp -> ApprovalRequest.id o = k) -> ApprovalRequest.id o = r ->
  forall k o', In (k, o') (map_set hp r o) -> ApprovalRequest.id o' = k.
Proof.
  intros Hi Ho k o' Hin. destruct (In_map_set _ _ _ _ Hin) as [H|H]; [eauto|].
  inversion H; subst; reflexivity.
Qed.

Lemma keys_map_delete (p : list (string * string)) r :
  (forall k v, In (k, v) p -> k = v) -> forall k v, In (k, v) (map_delete p r) -> k = v.
Proof. intros Hk k v Hin. apply In_map_delete in Hin. destruct Hin; eauto. Qed.

(** The manager after a decision for the waiting request [r]. *)
Lemma handleApproval_waiting_eq m r h d b c o :
  Unsettled r h d m -> map_get (heap m) r = Some o ->
  handleApproval m r b c =
  mkManager (config m)
    (map_set (heap m) r (ApprovalRequest.set_response
       (ApprovalRequest.set_status o (if b then ap_approved else ap_denied)) c))
    (pendingApprovals m) (governanceRules m) (map_delete (approvalHandlers m) r)
    (filter (fun t => negb (Nat.eqb (handle t) h)) (timers m)
       ++ [mkTimer (nextHandle m) (now m + 60000) (cb_evict r)])%list
    (S (nextHandle m)) (now m) (resolved m ++ [(r, b)])%list (dialogs m).
Proof.
  intros U Ho. unfold handleApproval. rewrite (u_pending _ _ _ _ U).
  unfold update_request. rewrite Ho. cbn [set_heap approvalHandlers].
  rewrite (u_handler _ _ _ _ U). reflexivity.
Qed.

(** What a decision does to a waiting request. *)
Lemma decision_on_waiting m r h d b c :
  gate_wf m -> Unsettled r h d m ->
  let m' := handleApproval m r b c in
  resolutions_of m' r = [b] /\
  (exists o, map_get (heap m') r = Some o /\ In o (getAllApprovals m') /\
     ApprovalRequest.status o = (if b then ap_approved else ap_denied) /\
     ApprovalRequest.response o = c) /\
  (forall o, In o (getPendingApprovals m') -> ApprovalRequest.id o <> r) /\
  fire m' h = m' /\
  cancelApproval m' r = (false, m') /\
  find_timer (timers m') (nextHandle m)
    = Some (mkTimer (nextHandle m) (now m + 60000) (cb_evict r)) /\
  (forall o, In o (getAllApprovals (fire m' (nextHandle m))) -> ApprovalRequest.id o <> r).
Proof.
  intros Wf U. pose proof U as U'.
  destruct U' as [Up [o [Ho Hos]] Uh Ut Uo Uhs Un Ur Uk Ui].
  cbv zeta. rewrite (handleApproval_waiting_eq m r h d b c o U Ho).
  set (o' := ApprovalRequest.set_response
               (ApprovalRequest.set_status o (if b then ap_approved else ap_denied)) c).
  assert (Hid : ApprovalRequest.id o' = r)
    by (apply (Ui r o), map_get_In, Ho).
  assert (Hi' := ids_map_set (heap m) r o' Ui Hid).
  assert (Hst : ApprovalRequest.status o' = (if b then ap_approved else ap_denied))
    by (destruct b; reflexivity).
  assert (Hnew : find_timer (filter (fun t => negb (Nat.eqb (handle t) h)) (timers m)
                   ++ [mkTimer (nextHandle m) (now m + 60000) (cb_evict r)])%list (nextHandle m)
                 = Some (mkTimer (nextHandle m) (now m + 60000) (cb_evict r))).
  { rewrite find_timer_app_none.
    - simpl. rewrite Nat.eqb_refl. reflexivity.
    - apply find_timer_filter_none, find_timer_none.
      intros t Hin E. pose proof (wf_timers _ Wf t Hin). lia. }
  split.
  { unfold resolutions_of in *. cbn [resolved]. rewrite filter_app, map_app, Ur. simpl.
    rewrite String.eqb_refl. reflexivity. }
  split.
  { exists o'. cbn [heap]. rewrite map_get_set, String.eqb_refl.
    split; [reflexivity|]. split; [|split; [exact Hst|reflexivity]].
    unfold getAllApprovals. apply in_flat_map. exists (r, r).
    split; [apply map_get_In, Up|]. cbn [heap snd pendingApprovals].
    rewrite map_get_set, String.eqb_refl. left; reflexivity. }
  split.
  { intros o1 Hin E. unfold getPendingApprovals in Hin. apply filter_In in Hin.
    destruct Hin as [Hin Hp].
    pose proof (fun Hk Hi => getAll_inv _ o1 Hk Hi Hin) as G.
    destruct (G Uk Hi') as [_ Hg]. cbn [heap] in Hg.
    rewrite E, map_get_set, String.eqb_refl in Hg. inversion Hg; subst o1.
    rewrite Hst in Hp. destruct b; discriminate Hp. }
  split.
  { unfold fire. cbn [timers]. rewrite find_timer_app_none by apply find_timer_cleared.
    simpl. destruct (Nat.eqb_spec (nextHandle m) h); [lia|reflexivity]. }
  split.
  { unfold cancelApproval. cbn [pendingApprovals heap]. rewrite Up, map_get_set, String.eqb_refl.
    rewrite Hst. destruct b; reflexivity. }
  split; [exact Hnew|].
  unfold fire. cbn [timers]. rewrite Hnew. cbn [callback run_callback].
  apply getAll_without.
  - apply keys_map_delete. exact Uk.
  - exact Hi'.
  - cbn [pendingApprovals set_pending clearTimeout set_timers].
    rewrite map_get_delete, String.eqb_refl. reflexivity.
Qed.

(** X1: A decision delivered for a request that is still waiting resolves its
    promise once, to the decision, and records the decision and comment
    on the request object. The request stops being pending at once, but
    [getAllApprovals] keeps listing it until its eviction timer, due
    60000 ms later, fires. Its timeout timer is cleared, so it can no
    longer expire, and the request can no longer be cancelled. *)
Theorem handleApproval_decides_waiting (m : Manager) (r : string) (h : nat) (d : Z)
    (b : bool) (c : option string) :
  gate_wf m -> Unsettled r h d m ->
  let m' := handleApproval m r b c in
  resolutions_of m' r = [b] /\
  (exists o, map_get (heap m') r = Some o /\ In o (getAllApprovals m') /\
     ApprovalRequest.status o = (if b then ap_approved else ap_denied) /\
     ApprovalRequest.response o = c) /\
  (forall o, In o (getPendingApprovals m') -> ApprovalRequest.id o <> r) /\
  fire m' h = m' /\
  cancelApproval m' r = (false, m') /\
  find_timer (timers m') (nextHandle m)
    = Some (mkTimer (nextHandle m) (now m + 60000) (cb_evict r)) /\
  (forall o, In o (getAllApprovals (fire m' (nextHandle m))) -> ApprovalRequest.id o <> r).
Proof. apply decision_on_waiting. Qed.

(** X2: The answers of the approval dialog of a waiting request: "Approve"
    resolves its promise to [true] with status ['approved']; "Deny"
    resolves it to [false] with status ['denied']; a dismissed dialog
    counts as a denial with the comment ["Dismissed"]. *)
Theorem dialogAnswer_decides (m : Manager) (r : string) (h : nat) (d : Z) :
  gate_wf m -> Unsettled r h d m ->
  (resolutions_of (dialogAnswer m r (Some "Approve")) r = [true] /\
   exists o, map_get (heap (dialogAnswer m r (Some "Approve"))) r = Some o /\
     ApprovalRequest.status o = ap_approved /\ ApprovalRequest.response o = None) /\
  (resolutions_of (dialogAnswer m r (Some "Deny")) r = [false] /\
   exists o, map_get (heap (dialogAnswer m r (Some "Deny"))) r = Some o /\
     ApprovalRequest.status o = ap_denied /\ ApprovalRequest.response o = None) /\
  (resolutions_of (dialogAnswer m r None) r = [false] /\
   exists o, map_get (heap (dialogAnswer m r None)) r = Some o /\
     ApprovalRequest.status o = ap_denied /\ ApprovalRequest.response o = Some "Dismissed").
Proof.
  intros Wf U.
  change (dialogAnswer m r (Some "Approve")) with (handleApproval m r true None).
  change (dialogAnswer m r (Some "Deny")) with (handleApproval m r false None).
  change (dialogAnswer m r None) with (handleApproval m r false (Some "Dismissed")).
  destruct (decision_on_waiting m r h d true None Wf U)
    as (R1 & (o1 & G1 & _ & S1 & C1) & _).
  destruct (decision_on_waiting m r h d false None Wf U)
    as (R2 & (o2 & G2 & _ & S2 & C2) & _).
  destruct (decision_on_waiting m r h d false (Some "Dismissed") Wf U)
    as (R3 & (o3 & G3 & _ & S3 & C3) & _).
  split; [split; [exact R1|exists o1; auto]|].
  split; [split; [exact R2|exists o2; auto]|].
  split; [exact R3|exists o3; auto].
Qed.

(** X3: Once the timeout of a request has fired, a late decision or
    cancellation for it changes nothing: [handleApproval] leaves the
    manager as it is and [cancelApproval] returns [false]. *)
Theorem expired_request_ignores_answers (m : Manager) (r : string) (h : nat) (d : Z)
    (b : bool) (c : option string) :
  Unsettled r h d m ->
  let m' := fire m h in
  handleApproval m' r b c = m' /\ cancelApproval m' r = (false, m').
Proof.
  intros U. destruct U as [Up [o [Ho Hos]] Uh Ut Uo Uhs Un Ur Uk Ui].
  cbv zeta.
  assert (Hp : map_get (pendingApprovals (fire m h)) r = None).
  { unfold fire. rewrite Ut. cbn [callback run_callback].
    unfold update_request. cbn [heap clearTimeout set_timers]. rewrite Ho.
    cbn [set_handlers set_pending set_heap push_resolved pendingApprovals].
    rewrite map_get_delete, String.eqb_refl. reflexivity. }
  unfold handleApproval, cancelApproval. rewrite Hp. split; reflexivity.
Qed.

(** The manager after the cancellation of the waiting request [r]. *)
Lemma cancelApproval_waiting_eq m r h d o :
  Unsettled r h d m -> map_get (heap m) r = Some o ->
  cancelApproval m r =
  (true, mkManager (config m)
    (map_set (heap m) r (ApprovalRequest.set_response
       (ApprovalRequest.set_status o ap_denied) (Some "Cancelled")))
    (map_delete (pendingApprovals m) r) (governanceRules m) (map_delete (approvalHandlers m) r)
    (filter (fun t => negb (Nat.eqb (handle t) h)) (timers m))
    (nextHandle m) (now m) (resolved m ++ [(r, false)])%list (dialogs m)).
Proof.
  intros U Ho. unfold cancelApproval. rewrite (u_pending _ _ _ _ U), Ho.
  destruct (u_object _ _ _ _ U) as [o1 [Ho1 Hs]]. rewrite Ho in Ho1. inversion Ho1; subst o1.
  rewrite Hs. cbn [negb ApprovalStatus_eqb].
  unfold update_request. rewrite Ho. cbn [set_heap approvalHandlers].
  rewrite (u_handler _ _ _ _ U). reflexivity.
Qed.

(** X4: Cancelling a waiting request returns [true], resolves its promise
    once, to [false], marks the object ['denied'] with the comment
    ["Cancelled"] and removes it from [getAllApprovals] at once. Its
    timeout timer is cleared; a later cancellation returns [false] and a
    later decision changes nothing. *)
Theorem cancelApproval_waiting (m : Manager) (r : string) (h : nat) (d : Z)
    (b : bool) (c : option string) :
  Unsettled r h d m ->
  let '(ok, m') := cancelApproval m r in
  ok = true /\
  resolutions_of m' r = [false] /\
  (exists o, map_get (heap m') r = Some o /\ ApprovalRequest.status o = ap_denied /\
     ApprovalRequest.response o = Some "Cancelled") /\
  (forall o, In o (getAllApprovals m') -> ApprovalRequest.id o <> r) /\
  fire m' h = m' /\
  cancelApproval m' r = (false, m') /\
  handleApproval m' r b c = m'.
Proof.
  intros U. pose proof U as U'.
  destruct U' as [Up [o [Ho Hos]] Uh Ut Uo Uhs Un Ur Uk Ui].
  rewrite (cancelApproval_waiting_eq m r h d o U Ho).
  set (o' := ApprovalRequest.set_response (ApprovalRequest.set_status o ap_denied)
               (Some "Cancelled")).
  assert (Hid : ApprovalRequest.id o' = r) by (apply (Ui r o), map_get_In, Ho).
  assert (Hp : map_get (map_delete (pendingApprovals m) r) r = None)
    by (rewrite map_get_delete, String.eqb_refl; reflexivity).
  split; [reflexivity|].
  split.
  { unfold resolutions_of in *. cbn [resolved]. rewrite filter_app, map_app, Ur. simpl.
    rewrite String.eqb_refl. reflexivity. }
  split.
  { exists o'. cbn [heap]. rewrite map_get_set, String.eqb_refl. auto. }
  split.
  { apply getAll_without; cbn [pendingApprovals heap].
    - apply keys_map_delete, Uk.
    - apply ids_map_set; assumption.
    - exact Hp. }
  split.
  { unfold fire. cbn [timers]. rewrite find_timer_cleared. reflexivity. }
  split.
  { unfold cancelApproval. cbn [pendingApprovals]. rewrite Hp. reflexivity. }
  unfold handleApproval. cbn [pendingApprovals]. rewrite Hp. reflexivity.
Qed.

(** [dispose] as a fold over [approvalHandlers]. *)
Lemma dispose_fold l m0 :
  let m1 := fold_left (fun m kv => push_resolved (clearTimeout m (snd kv)) (fst kv, false)) l m0 in
  resolved m1 = (resolved m0 ++ map (fun kv => (fst kv, false)) l)%list /\
  heap m1 = heap m0 /\ governanceRules m1 = governanceRules m0 /\
  (forall kv, In kv l -> find_timer (timers m1) (snd kv) = None) /\
  (forall h', find_timer (timers m0) h' = None -> find_timer (timers m1) h' = None).
Proof.
  revert m0. induction l as [|kv l IH]; intros m0; cbn [fold_left].
  - rewrite app_nil_r. repeat split; auto. intros kv [].
  - destruct (IH (push_resolved (clearTimeout m0 (snd kv)) (fst kv, false)))
      as (R & Hh & Hr & Ht & Hk).
    cbn [resolved heap governanceRules push_resolved clearTimeout set_timers timers] in R, Hh, Hr, Hk.
    split; [rewrite R, <- app_assoc; reflexivity|].
    split; [exact Hh|]. split; [exact Hr|].
    split.
    + intros kv' [<-|Hin]; [|auto]. apply Hk. apply find_timer_cleared.
    + intros h' E. apply Hk. apply find_timer_filter_none, E.
Qed.

(** X5: [dispose] resolves the promise of every request that still has a
    handler to [false], in the order of [approvalHandlers], and clears
    their timeout timers; afterwards no handler is left and neither
    [getAllApprovals] nor [getPendingApprovals] lists anything. The
    request objects themselves are not updated, and the rules stay. *)
Theorem dispose_resolves_all (m : Manager) :
  let m' := dispose m in
  resolved m' = (resolved m ++ map (fun kv => (fst kv, false)) (approvalHandlers m))%list /\
  (forall kv, In kv (approvalHandlers m) -> find_timer (timers m') (snd kv) = None) /\
  approvalHandlers m' = [] /\
  getAllApprovals m' = [] /\
  getPendingApprovals m' = [] /\
  heap m' = heap m /\
  governanceRules m' = governanceRules m.
Proof.
  cbv zeta. unfold dispose.
  destruct (dispose_fold (approvalHandlers m) m) as (R & Hh & Hr & Ht & _).
  cbn [set_pending set_handlers resolved timers approvalHandlers heap governanceRules].
  repeat split; auto.
Qed.

(** X6: "View Details" on the dialog of a waiting request decides nothing:
    the request keeps waiting, and a re-display of the dialog is
    scheduled 500 ms later; when that timer fires the dialog is shown
    again and the request is still waiting. *)
Theorem viewDetails_keeps_waiting (m : Manager) (r : string) (h : nat) (d : Z) :
  gate_wf m -> Unsettled r h d m ->
  let m1 := dialogAnswer m r (Some "View Details") in
  let m2 := fire m1 (nextHandle m) in
  Unsettled r h d m1 /\ resolutions_of m1 r = [] /\
  find_timer (timers m1) (nextHandle m)
    = Some (mkTimer (nextHandle m) (now m + 500) (cb_redisplay r)) /\
  dialogs m2 = (dialogs m ++ [r])%list /\
  Unsettled r h d m2 /\ resolutions_of m2 r = [].
Proof.
  intros Wf U. cbv zeta.
  assert (U1 : Unsettled r h d (dialogAnswer m r (Some "View Details"))).
  { apply (U_step r h d m (ev_dialog r (Some "View Details"))); [|exact U].
    cbn [settles]. rewrite String.eqb_refl. reflexivity. }
  assert (E1 : dialogAnswer m r (Some "View Details")
               = snd (setTimeout m (cb_redisplay r) 500)) by reflexivity.
  assert (T1 : find_timer (timers (dialogAnswer m r (Some "View Details"))) (nextHandle m)
               = Some (mkTimer (nextHandle m) (now m + 500) (cb_redisplay r))).
  { rewrite E1. cbn [setTimeout snd timers]. rewrite find_timer_app_none.
    - simpl. rewrite Nat.eqb_refl. reflexivity.
    - apply find_timer_none. intros t Hin E. pose proof (wf_timers _ Wf t Hin). lia. }
  assert (U2 : Unsettled r h d (fire (dialogAnswer m r (Some "View Details")) (nextHandle m))).
  { apply U_fire; [|exact U1]. pose proof (u_next _ _ _ _ U). lia. }
  split; [exact U1|]. split; [exact (u_unresolved _ _ _ _ U1)|].
  split; [exact T1|]. split.
  - unfold fire. rewrite T1. cbn [callback run_callback push_dialog dialogs].
    rewrite E1. reflexivity.
  - split; [exact U2|exact (u_unresolved _ _ _ _ U2)].
Qed.

End HITLExtra.

(** ** Governance rules and approval statistics *)
Module RulesExtra.
Import HITL.

Lemma filter_all_false {A : Type} (f : A -> bool) l :
  (forall y, In y l -> f y = false) -> filter f l = [].
Proof.
  induction l as [|y l IH]; simpl; intros H; [reflexivity|].
  rewrite (H y (or_introl eq_refl)). apply IH. intros; apply H; auto.
Qed.

Lemma insert_desc_sorted r l :
  Sorted (fun a b => GovernanceRule.priority b <= GovernanceRule.priority a) l ->
  Sorted (fun a b => GovernanceRule.priority b <= GovernanceRule.priority a) (insert_desc r l).
Proof.
  induction l as [|x t IH]; simpl; intros S.
  - repeat constructor.
  - destruct (Z.ltb_spec (GovernanceRule.priority x) (GovernanceRule.priority r)) as [Hlt|Hge].
    + constructor; [exact S|]. constructor. cbv beta. lia.
    + apply Sorted_inv in S. destruct S as [St Hx].
      constructor; [apply IH, St|].
      destruct t as [|y t']; simpl.
      * constructor. cbv beta. lia.
      * destruct (Z.ltb (GovernanceRule.priority y) (GovernanceRule.priority r)); constructor;
          first [cbv beta; lia | inversion Hx; subst; cbv beta in *; lia].
Qed.

Lemma insert_desc_perm r l : Permutation (insert_desc r l) (r :: l).
Proof.
  induction l as [|x t IH]; simpl; [reflexivity|].
  destruct (GovernanceRule.priority x <? GovernanceRule.priority r); [reflexivity|].
  rewrite IH. apply perm_swap.
Qed.

Lemma sorted_head_max x l :
  Sorted (fun a b => GovernanceRule.priority b <= GovernanceRule.priority a) (x :: l) -> forall y, In y (x :: l) -> GovernanceRule.priority y <= GovernanceRule.priority x.
Proof.
  intros S. apply Sorted_StronglySorted in S; [|intros a b c; cbv beta; lia].
  intros y [<-|Hin]; [lia|]. inversion S as [|a l' Ss Hf]; subst.
  rewrite Forall_forall in Hf. apply Hf, Hin.
Qed.

Lemma insert_desc_stable r l p :
  Sorted (fun a b => GovernanceRule.priority b <= GovernanceRule.priority a) l ->
  filter (fun x => GovernanceRule.priority x =? p) (insert_desc r l)
  = (filter (fun x => GovernanceRule.priority x =? p) l ++ (if GovernanceRule.priority r =? p then [r] else []))%list.
Proof.
  induction l as [|x t IH]; intros S.
  - simpl. destruct (GovernanceRule.priority r =? p); reflexivity.
  - pose proof (sorted_head_max x t S) as Hall.
    cbn [insert_desc]. destruct (Z.ltb_spec (GovernanceRule.priority x) (GovernanceRule.priority r)) as [Hlt|Hge].
    + cbn [filter]. destruct (Z.eqb_spec (GovernanceRule.priority r) p) as [Er|Er].
      * assert (Fx : (GovernanceRule.priority x =? p) = false) by (apply Z.eqb_neq; lia).
        assert (Ft : filter (fun x => GovernanceRule.priority x =? p) t = []).
        { apply filter_all_false. intros y Hy. apply Z.eqb_neq.
          pose proof (Hall y (or_intror Hy)). lia. }
        rewrite Fx, Ft. reflexivity.
      * rewrite app_nil_r. reflexivity.
    + apply Sorted_inv in S. destruct S as [St _].
      cbn [filter]. rewrite IH by exact St. destruct (GovernanceRule.priority x =? p); reflexivity.
Qed.

Lemma sort_desc_fold_sorted l acc :
  Sorted (fun a b => GovernanceRule.priority b <= GovernanceRule.priority a) acc ->
  Sorted (fun a b => GovernanceRule.priority b <= GovernanceRule.priority a) (fold_left (fun acc r => insert_desc r acc) l acc).
Proof.
  revert acc. induction l as [|x l IH]; simpl; intros acc S; [exact S|].
  apply IH, insert_desc_sorted, S.
Qed.

Lemma sort_desc_fold_perm l acc :
  Permutation (fold_left (fun acc r => insert_desc r acc) l acc) (acc ++ l).
Proof.
  revert acc. induction l as [|x l IH]; simpl; intros acc; [rewrite app_nil_r; reflexivity|].
  etransitivity; [apply IH|].
  etransitivity; [apply Permutation_app_tail, insert_desc_perm|].
  simpl. apply Permutation_middle.
Qed.

Lemma sort_desc_fold_stable l acc p :
  Sorted (fun a b => GovernanceRule.priority b <= GovernanceRule.priority a) acc ->
  filter (fun x => GovernanceRule.priority x =? p) (fold_left (fun acc r => insert_desc r acc) l acc)
  = (filter (fun x => GovernanceRule.priority x =? p) acc ++ filter (fun x => GovernanceRule.priority x =? p) l)%list.
Proof.
  revert acc. induction l as [|x l IH]; simpl; intros acc S; [rewrite app_nil_r; reflexivity|].
  rewrite IH by (apply insert_desc_sorted, S).
  rewrite insert_desc_stable by exact S.
  destruct (GovernanceRule.priority x =? p); simpl; rewrite <- app_assoc; reflexivity.
Qed.

(** X7: [addRule] keeps the rules sorted by descending priority. The result
    holds the previous rules and the new one, and rules of equal priority
    keep their order, so the new rule comes after the rules that already
    had its priority. *)
Theorem addRule_sorted_stable (m : Manager) (rule : GovernanceRule.t) :
  let rules := getRules (addRule m rule) in
  Sorted (fun a b => GovernanceRule.priority b <= GovernanceRule.priority a) rules /\
  Permutation rules (getRules m ++ [rule]) /\
  (forall p, filter (fun x => GovernanceRule.priority x =? p) rules
             = filter (fun x => GovernanceRule.priority x =? p) (getRules m ++ [rule])).
Proof.
  cbv zeta. unfold getRules, addRule, set_rules, sort_desc. cbn [governanceRules].
  split; [apply sort_desc_fold_sorted; constructor|].
  split; [exact (sort_desc_fold_perm _ [])|].
  intros p. rewrite sort_desc_fold_stable by constructor. reflexivity.
Qed.

Lemma findIndex_split l rid :
  ((forall x, In x l -> GovernanceRule.id x <> rid) /\ findIndex_rule l rid = None) \/
  (exists pre x post i, l = (pre ++ x :: post)%list /\ GovernanceRule.id x = rid /\
     Forall (fun y => GovernanceRule.id y <> rid) pre /\
     findIndex_rule l rid = Some i /\ splice1 l i = (pre ++ post)%list).
Proof.
  induction l as [|y t IH]; simpl.
  - left. split; [intros x []|reflexivity].
  - destruct (String.eqb_spec (GovernanceRule.id y) rid) as [E|E].
    + right. exists [], y, t, O. repeat split; auto.
    + destruct IH as [[Hn Hf]|(pre & x & post & i & El & Ex & Hpre & Hf & Hs)].
      * left. rewrite Hf. split; [|reflexivity]. intros x [<-|Hin]; auto.
      * right. exists (y :: pre), x, post, (S i). rewrite Hf. cbn [option_map splice1].
        rewrite Hs, El. repeat split; auto.
Qed.

(** X8: [removeRule(ruleId)]: when no rule has the id, it returns [false] and
    changes nothing; otherwise it returns [true] and removes exactly the
    first rule with that id, keeping the others in order. *)
Theorem removeRule_first_match (m : Manager) (rid : string) :
  ((forall x, In x (getRules m) -> GovernanceRule.id x <> rid) /\ removeRule m rid = (false, m))
  \/
  (exists pre x post,
     getRules m = (pre ++ x :: post)%list /\ GovernanceRule.id x = rid /\
     Forall (fun y => GovernanceRule.id y <> rid) pre /\
     removeRule m rid = (true, set_rules m (pre ++ post)%list)).
Proof.
  unfold removeRule, getRules.
  destruct (findIndex_split (governanceRules m) rid)
    as [[Hn Hf]|(pre & x & post & i & El & Ex & Hpre & Hf & Hs)].
  - left. rewrite Hf. auto.
  - right. exists pre, x, post. rewrite Hf, Hs. auto.
Qed.

Lemma default_rules_shape cfg t0 :
  map GovernanceRule.id (getRules (create cfg t0))
    = ["file-system-write"; "read-only"; "high-impact"] /\
  forall a, shouldAutoApprove (create cfg t0) a
    = andb (autoApproveReadOnly cfg)
           (orb (alternation_ci ["read"; "list"; "get"; "fetch"; "search"] (ProposedAction.type a))
                (alternation_ci ["read"; "list"; "get"; "fetch"; "search"]
                   (ProposedAction.description a))).
Proof.
  split; [reflexivity|]. intros a.
  unfold shouldAutoApprove, create, setupDefaultRules, addRule.
  cbn -[alternation_ci].
  repeat match goal with |- context [if ?c then _ else _] => destruct c end;
    try reflexivity; destruct (autoApproveReadOnly cfg); reflexivity.
Qed.

(** X9: The rules of a new manager are ["file-system-write"], ["read-only"]
    and ["high-impact"], in that order, and it auto-approves an action
    exactly when [autoApproveReadOnly] is set and the action's type or
    description matches /read|list|get|fetch|search/i: the matching
    write rule and the catch-all high-impact rule never auto-approve. *)
Theorem default_rules_autoApprove (cfg : ExtensionConfig) (t0 : Z) (a : ProposedAction.t) :
  map GovernanceRule.id (getRules (create cfg t0))
    = ["file-system-write"; "read-only"; "high-impact"] /\
  shouldAutoApprove (create cfg t0) a
    = andb (autoApproveReadOnly cfg)
           (orb (alternation_ci ["read"; "list"; "get"; "fetch"; "search"] (ProposedAction.type a))
                (alternation_ci ["read"; "list"; "get"; "fetch"; "search"]
                   (ProposedAction.description a))).
Proof. destruct (default_rules_shape cfg t0) as [H1 H2]. auto. Qed.

(** X10: With [autoApproveReadOnly] off — the only setting in which the
    workflow engine asks for approval — a new manager approves nothing by
    itself: a request (made without an explicit timeout, as the engine
    makes it) is pending, a dialog is shown for it, and its timeout timer
    is due after [approvalTimeout || 30000] ms. *)
Theorem default_manager_asks_user (cfg : ExtensionConfig) (t0 : Z) (fresh : string)
    (a : ProposedAction.t) :
  autoApproveReadOnly cfg = false ->
  let '(p, m) := requestApproval (create cfg t0) fresh a None in
  p = awaiting fresh /\ dialogs m = [fresh] /\
  getPendingApprovals m = [ApprovalRequest.mk fresh a t0 ap_pending None] /\
  timers m = [mkTimer 1 (t0 + js_or_num (approvalTimeout cfg) 30000) (cb_expire fresh)].
Proof.
  intros Hf. destruct (default_rules_shape cfg t0) as [_ Ha].
  unfold requestApproval. rewrite Ha, Hf. cbn [andb shouldAutoDeny].
  unfold getPendingApprovals, getAllApprovals. cbn. rewrite String.eqb_refl. cbn.
  repeat split; reflexivity.
Qed.

Lemma count_status_partition (l : list ApprovalRequest.t) :
  length l = (ApprovalManager.count_status l ap_approved + ApprovalManager.count_status l ap_denied
              + ApprovalManager.count_status l ap_pending
              + ApprovalManager.count_status l ap_expired)%nat.
Proof.
  unfold ApprovalManager.count_status.
  induction l as [|x l IH]; simpl; [reflexivity|].
  destruct (ApprovalRequest.status x); simpl; rewrite IH; lia.
Qed.

(** X11: [ApprovalManager.getApprovalStats()]: the four counts add up to the
    total, and the pending count is the length of [getPendingApprovals()]. *)
Theorem getApprovalStats_consistent (m : Manager) :
  let s := ApprovalManager.getApprovalStats m in
  ApprovalManager.total s = (ApprovalManager.approved s + ApprovalManager.denied s
                             + ApprovalManager.pending s + ApprovalManager.expired s)%nat /\
  ApprovalManager.pending s = length (ApprovalManager.getPendingApprovals m).
Proof.
  cbv zeta. unfold ApprovalManager.getApprovalStats. cbn.
  split; [apply count_status_partition|reflexivity].
Qed.

End RulesExtra.

(** ** The audit log *)
Module AuditExtra.
Import Audit.

Lemma addEntry_logs l e :
  logs (addEntry l e)
  = (if Nat.ltb 1000 (length (logs l ++ [e]))
     then skipn (length (logs l ++ [e]) - 1000) (logs l ++ [e]) else logs l ++ [e])%list.
Proof. reflexivity. Qed.

Lemma addEntry_not_full l e :
  (length (logs l) < 1000)%nat -> logs (addEntry l e) = (logs l ++ [e])%list.
Proof.
  intros H. rewrite addEntry_logs, length_app. cbn [length].
  destruct (Nat.ltb_spec 1000 (length (logs l) + 1)); [lia|reflexivity].
Qed.

(** X12: [addEntry] keeps at most 1000 entries: the new entry is always the
    last one, what is kept is the most recent part of the old entries
    followed by it, nothing is dropped while there is room, a full log
    drops exactly its oldest entry, and the stored copy is the new log. *)
Theorem addEntry_keeps_recent (l : Logger) (e : AuditLogEntry.t) :
  let l' := addEntry l e in
  (length (getAllLogs l') <= 1000)%nat /\
  (exists dropped, (logs l ++ [e])%list = (dropped ++ getAllLogs l')%list) /\
  (exists kept, getAllLogs l' = (kept ++ [e])%list) /\
  ((length (logs l) < 1000)%nat -> getAllLogs l' = (logs l ++ [e])%list) /\
  (length (logs l) = 1000%nat -> getAllLogs l' = (tl (logs l) ++ [e])%list) /\
  ((1000 <= length (logs l))%nat -> length (getAllLogs l') = 1000%nat) /\
  stored l' = Some (getAllLogs l').
Proof.
  cbv zeta. unfold getAllLogs.
  assert (Hs : stored (addEntry l e) = Some (logs (addEntry l e))) by reflexivity.
  rewrite Hs, addEntry_logs, length_app. cbn [length].
  split; [|split; [|split; [|split; [|split; [|split]]]]].
  - destruct (Nat.ltb_spec 1000 (length (logs l) + 1)).
    + rewrite length_skipn, length_app. cbn [length]. lia.
    + rewrite length_app. cbn [length]. lia.
  - destruct (Nat.ltb 1000 (length (logs l) + 1)).
    + eexists. symmetry. apply firstn_skipn.
    + exists []. reflexivity.
  - destruct (Nat.ltb_spec 1000 (length (logs l) + 1)).
    + rewrite skipn_app. exists (skipn (length (logs l) + 1 - 1000) (logs l)).
      replace (length (logs l) + 1 - 1000 - length (logs l))%nat with O by lia.
      reflexivity.
    + exists (logs l). reflexivity.
  - intros H. destruct (Nat.ltb_spec 1000 (length (logs l) + 1)); [lia|reflexivity].
  - intros H. rewrite H. cbn. destruct (logs l) as [|x xs]; [discriminate|reflexivity].
  - intros H. destruct (Nat.ltb_spec 1000 (length (logs l) + 1)).
    + rewrite length_skipn, length_app. cbn [length]. lia.
    + lia.
  - reflexivity.
Qed.

(** X13: Once an approval decision is known, [ApprovalManager] appends one
    entry to the approval history, of type ['approval'], whose
    [requestId] field holds the action's type (['unknown'] when that is
    empty), with the decision and no comment; the logs of the other types
    are unchanged (while the log has room). *)
Theorem logDecision_history (l : Logger) (fresh : string) (t : Z)
    (action : ProposedAction.t) (approved : bool) :
  (length (logs l) < 1000)%nat ->
  ApprovalManager.getApprovalHistory (ApprovalManager.logDecision l fresh t action approved)
  = (ApprovalManager.getApprovalHistory l ++
     [AuditLogEntry.mk fresh t approval None
        (d_approval (if String.eqb (ProposedAction.type action) "" then "unknown"
                     else ProposedAction.type action) approved action None)])%list /\
  (forall ty, ty <> approval ->
     getLogsByType (ApprovalManager.logDecision l fresh t action approved) ty
     = getLogsByType l ty).
Proof.
  intros H. unfold ApprovalManager.getApprovalHistory, ApprovalManager.logDecision,
    logApproval, getLogsByType.
  rewrite addEntry_not_full by exact H. rewrite filter_app.
  split; [reflexivity|].
  intros ty Hty. rewrite filter_app. cbn.
  destruct ty; try (exfalso; apply Hty; reflexivity); apply app_nil_r.
Qed.

(** Splitting the filter of an inclusive range at [mid]. *)
Lemma in_range_split (xs : list AuditLogEntry.t) (s mid e : Z) :
  s <= mid <= e ->
  Permutation
    (filter (fun x => (s <=? AuditLogEntry.timestamp x) && (AuditLogEntry.timestamp x <=? e)) xs)
    (filter (fun x => (s <=? AuditLogEntry.timestamp x) && (AuditLogEntry.timestamp x <=? mid)) xs ++
     filter (fun x => (mid + 1 <=? AuditLogEntry.timestamp x) && (AuditLogEntry.timestamp x <=? e)) xs).
Proof.
  intros H. induction xs as [|x xs IH]; [constructor|]. cbn [filter].
  destruct (Z.leb_spec s (AuditLogEntry.timestamp x)), (Z.leb_spec (AuditLogEntry.timestamp x) mid),
           (Z.leb_spec (mid + 1) (AuditLogEntry.timestamp x)), (Z.leb_spec (AuditLogEntry.timestamp x) e);
    cbn [andb app]; try (exfalso; lia);
    first [exact IH | apply perm_skip, IH | apply Permutation_cons_app, IH].
Qed.
(** X14: [getLogsByTimeRange(start, end)] is empty when [start > end].
    Splitting a range [[s, e]] at [mid] into [[s, mid]] and [[mid + 1, e]]
    partitions its entries: the two sub-ranges together are a permutation of
    the range (every entry of the range lies in exactly one of them, with its
    multiplicity), an entry is in the range iff it is in one of the
    sub-ranges, and no entry is in both. *)
Theorem getLogsByTimeRange_split (l : Logger) (s mid e : Z) :
  (e < s -> getLogsByTimeRange l s e = []) /\
  (s <= mid <= e ->
   Permutation (getLogsByTimeRange l s e)
               (getLogsByTimeRange l s mid ++ getLogsByTimeRange l (mid + 1) e) /\
   (forall x, In x (getLogsByTimeRange l s e) <->
              In x (getLogsByTimeRange l s mid) \/ In x (getLogsByTimeRange l (mid + 1) e)) /\
   (forall x, In x (getLogsByTimeRange l s mid) -> ~ In x (getLogsByTimeRange l (mid + 1) e))).
Proof.
  unfold getLogsByTimeRange. split.
  - intros H. apply RulesExtra.filter_all_false. intros x _.
    destruct (Z.leb_spec s (AuditLogEntry.timestamp x)),
             (Z.leb_spec (AuditLogEntry.timestamp x) e); simpl; auto; lia.
  - intros H. pose proof (in_range_split (logs l) s mid e H) as P. split; [exact P|]. split.
    + intros x. rewrite <- in_app_iff. split; [apply Permutation_in | apply Permutation_in];
        [exact P | symmetry; exact P].
    + intros x Hx Hy. apply filter_In in Hx as [_ Hx]. apply filter_In in Hy as [_ Hy].
      apply andb_prop in Hx as [Hx1 Hx2]. apply andb_prop in Hy as [Hy1 Hy2].
      apply Z.leb_le in Hx2. apply Z.leb_le in Hy1. lia.
Qed.

Lemma apply_op_saves l o : stored (apply_op l o) = Some (logs (apply_op l o)).
Proof. destruct o; reflexivity. Qed.

Lemma apply_ops_saves ops l :
  stored l = Some (logs l) -> stored (apply_ops l ops) = Some (logs (apply_ops l ops)).
Proof.
  unfold apply_ops. revert l. induction ops as [|o ops IH]; simpl; intros l H; [exact H|].
  apply IH, apply_op_saves.
Qed.

(** X15: After any activity of a logger (logging of any kind, clearing), the
    value stored under ['auditLogs'] is its log, so an [AuditLogger]
    created later over that storage starts with exactly the same entries. *)
Theorem audit_logs_persist (s : option (list AuditLogEntry.t)) (ops : list Op) :
  ops <> [] ->
  let l := apply_ops (create s) ops in
  stored l = Some (getAllLogs l) /\ getAllLogs (create (stored l)) = getAllLogs l.
Proof.
  intros Hne. destruct ops as [|o ops]; [contradiction|]. cbv zeta.
  assert (E : stored (apply_ops (create s) (o :: ops))
              = Some (logs (apply_ops (create s) (o :: ops))))
    by exact (apply_ops_saves ops (apply_op (create s) o) (apply_op_saves _ _)).
  unfold getAllLogs. rewrite E. split; reflexivity.
Qed.

End AuditExtra.

(** ** Further properties of the engine and the agents *)
Module EngineExtra.
Import Engine EngineProps EngineFacts Agent AgentProps.

(** *** Properties every world of a run keeps *)
Section Invariant.
Variable I : World -> Prop.
Hypothesis I_update : forall w x f, I w -> I (update_state w x f).
Hypothesis I_record : forall w o, I w -> I (record w o).
Hypothesis I_token : forall w t, I w -> I (set_token w t).

Lemma I_write w x s b : I w -> I (write_status w x s b).
Proof. intros Hw. unfold write_status. destruct (map_get _ x); auto. Qed.

Lemma I_apply_envs w evs : I w -> I (apply_envs w evs).
Proof.
  unfold apply_envs. revert w. induction evs as [|e evs IH]; simpl; intros w Hw; [exact Hw|].
  apply IH. destruct e as [x|]; cbn [apply_env].
  - unfold cancelWorkflow. destruct (map_get _ x); reduce; auto using I_write.
  - destruct (token w); auto.
Qed.

Context {Wf : Type} `{Workflow Wf} (eng : EngineEnv) (stream : bool) (wid : string).

Lemma I_progress w m : I w -> I (progress stream w m).
Proof. unfold progress. destruct stream; auto. Qed.

Lemma I_markdown w m : I w -> I (markdown stream w m).
Proof. unfold markdown. destruct stream; auto. Qed.

Lemma I_start_phase w n : I w -> I (start_phase wid w n).
Proof. apply I_update. Qed.

Lemma I_complete_phase w r : I w -> I (complete_phase wid w r).
Proof. apply I_update. Qed.

Lemma I_set_error w e : I w -> I (set_error wid w e).
Proof. apply I_update. Qed.

Local Ltac inv_tac :=
  repeat first [ apply I_apply_envs | apply I_write | apply I_record | apply I_progress
               | apply I_markdown | apply I_start_phase | apply I_complete_phase
               | apply I_set_error | apply I_update ]; try assumption.

Lemma I_iteration k cur w :
  I w -> (forall c w', I w' -> I (snd (k c w'))) -> I (snd (iteration eng stream wid k cur w)).
Proof.
  intros Hw Hk.
  assert (Hact : forall a c w1, I w1 -> I (snd (act_phase stream wid k a c w1))).
  { intros a c w1 H1. unfold act_phase, after_observe.
    destruct (act c a) as [[acts c2] ev2|m ev2]; reduce; cbn [snd]; [|inv_tac].
    destruct (observe c2 acts) as [[o c3] ev3|m ev3]; reduce; cbn [snd]; [|inv_tac].
    destruct (negb _); reduce; cbn [snd]; [inv_tac|].
    destruct (refine c3 o) as [c4 ev4|m ev4]; reduce; cbn [snd]; [apply Hk; inv_tac | inv_tac]. }
  unfold iteration. destruct (think cur) as [[a c1] ev1|m ev1]; reduce; cbn [snd]; [|inv_tac].
  destruct (andb _ _).
  - match goal with |- context [requestApproval eng ?W ?P] =>
      destruct (requestApproval eng W P) as [b ev|m ev] end; reduce; cbn [snd]; [|inv_tac].
    destruct b; cbn [negb]; reduce; cbn [snd]; [apply Hact; inv_tac | inv_tac].
  - apply Hact; inv_tac.
Qed.

Lemma I_loop n cur w : I w -> I (snd (loop eng stream wid n cur w)).
Proof.
  revert cur w. induction n as [|n IH]; intros cur w Hw; cbn [loop]; [exact Hw|].
  destruct (isCancellationRequested w); reduce; cbn [snd]; [inv_tac|].
  destruct (_ <=? _); [exact Hw|]. apply I_iteration; auto.
Qed.

Lemma I_executeWorkflowInternal cur w :
  I w -> I (snd (executeWorkflowInternal eng stream wid cur w)).
Proof.
  intros Hw. unfold executeWorkflowInternal.
  pose proof (I_loop (S (Z.to_nat (maxIterations eng))) cur w Hw) as P.
  destruct (loop eng stream wid (S (Z.to_nat (maxIterations eng))) cur w) as [x w1].
  cbn [snd] in P. destruct x; reduce; cbn [snd]; inv_tac.
Qed.
End Invariant.

Lemma present_update wid w x f :
  (exists st, map_get (activeWorkflows w) wid = Some st) ->
  exists st, map_get (activeWorkflows (update_state w x f)) wid = Some st.
Proof.
  intros [st E]. unfold update_state. destruct (map_get _ x) as [s|]; [|eauto].
  unfold set_active; cbn [activeWorkflows]. rewrite map_get_set.
  destruct (String.eqb wid x); eauto.
Qed.

Lemma deletions_update w x f : deletions (update_state w x f) = deletions w.
Proof. unfold update_state. destruct (map_get _ x); reflexivity. Qed.

(** The [finally] block on a world where the state of [wid] exists. *)
Lemma finally_state wid w st :
  map_get (activeWorkflows w) wid = Some st ->
  let w' := update_state w wid (fun st => WorkflowState.set_endTime st (Some (clock w))) in
  let w' := write_status w' wid completed by_finally in
  getWorkflowState w' wid =
    Some (WorkflowState.set_status (WorkflowState.set_endTime st (Some (clock w))) completed) /\
  clock w' = clock w /\ deletions w' = deletions w.
Proof.
  intros E. cbv zeta. unfold getWorkflowState, write_status, update_state. rewrite E.
  unfold set_active, record.
  repeat (cbn [activeWorkflows clock deletions token trace]; rewrite ?map_get_set, ?String.eqb_refl).
  auto.
Qed.

(** X16: The [finally] block of [executeWorkflow] always runs: whatever the
    workflow's methods return or throw and whatever happens while they are
    awaited, the state of the execution is afterwards in [activeWorkflows]
    with status [completed] and [endTime] the current time, and exactly one
    removal of it is scheduled, 60000 ms later. *)
Theorem executeWorkflow_finally {Wf : Type} `{Workflow Wf}
    (eng : EngineEnv) (stream : bool) (wid : string) (workflow : Wf) (w0 : World) :
  let '(res, w) := Engine.executeWorkflow eng stream wid workflow w0 in
  exists st, getWorkflowState w wid = Some st /\
    WorkflowState.status st = completed /\ WorkflowState.endTime st = Some (clock w) /\
    deletions w = (deletions w0 ++ [(clock w + 60000, wid)])%list.
Proof.
  unfold Engine.executeWorkflow. reduce.
  match goal with |- context [executeWorkflowInternal eng stream wid workflow ?W] =>
    assert (P : exists st, map_get (activeWorkflows
                  (snd (executeWorkflowInternal eng stream wid workflow W))) wid = Some st);
    [ apply (I_executeWorkflowInternal
               (fun w => exists st, map_get (activeWorkflows w) wid = Some st));
      [ apply present_update | intros ? ? Hw; exact Hw | intros ? ? Hw; exact Hw
      | destruct (Live_start wid (wf_name workflow) (clock w0) w0
                    (o_status wid thinking by_execute)) as [st [E _]]; exists st; exact E ]
    | ];
    assert (D : deletions (snd (executeWorkflowInternal eng stream wid workflow W)) = deletions w0);
    [ apply (I_executeWorkflowInternal (fun w => deletions w = deletions w0));
      [ intros ? ? ? Hw; rewrite deletions_update; exact Hw | intros ? ? Hw; exact Hw
      | intros ? ? Hw; exact Hw
      | reflexivity ]
    | ];
    destruct (executeWorkflowInternal eng stream wid workflow W) as [res w1] end.
  cbn [snd] in P, D. destruct P as [st E]. reduce.
  destruct (finally_state wid w1 st E) as (G & Cl & De).
  eexists. unfold set_deletions; cbn [clock deletions activeWorkflows].
  unfold getWorkflowState in *. cbn [activeWorkflows]. rewrite G, Cl, De, D.
  split; [reflexivity|]. split; [reflexivity|]. split; [reflexivity|]. reflexivity.
Qed.

(** *** Counting the passes of the loop *)
Lemma think_calls_app l1 l2 : think_calls (l1 ++ l2) = (think_calls l1 + think_calls l2)%nat.
Proof. unfold think_calls. rewrite filter_app, length_app. reflexivity. Qed.

Lemma think_calls_think : think_calls [c_think] = 1%nat.
Proof. reflexivity. Qed.

Lemma think_calls_other c : c <> c_think -> think_calls [c] = 0%nat.
Proof. destruct c; try reflexivity. intros E; contradiction E; reflexivity. Qed.

Ltac count_simpl :=
  calls_simpl; rewrite ?think_calls_app, ?think_calls_think;
  rewrite ?(think_calls_other c_act), ?(think_calls_other c_observe),
          ?(think_calls_other c_refine) by discriminate;
  repeat match goal with |- context [think_calls [c_approval ?a]] =>
    rewrite (think_calls_other (c_approval a)) by discriminate end.

Ltac count_exit j :=
  exists j; cbn [fst snd]; split; [eauto 20 with live|];
  split; [lia|]; split; [count_simpl; lia|]; split; [discriminate|].

Ltac no_return := let r := fresh in let E := fresh in intros r E; discriminate E.

Ltac returns_count :=
  let r := fresh in let E := fresh in
  intros r E; injection E as <-; try unfold denied_result;
  cbn [WorkflowResult.iterations]; apply Live_iterations; eauto 20 with live.

Section Count.
Context {Wf : Type} `{Workflow Wf} (eng : EngineEnv) (stream : bool) (wid : string) (t0 : nat).

Lemma pass_count k cur w i :
  Live wid w i -> 0 <= i -> i < maxIterations eng ->
  (think_calls (calls_of (trace w)) = t0 + Z.to_nat i)%nat ->
  (forall c w', Live wid w' (i + 1) ->
     (think_calls (calls_of (trace w')) = t0 + Z.to_nat (i + 1))%nat ->
     count_post eng wid t0 (k c w')) ->
  count_post eng wid t0 (iteration eng stream wid k cur w).
Proof.
  intros L Hi0 Him C Hk.
  assert (Hact : forall a c w1, Live wid w1 (i + 1) ->
            (think_calls (calls_of (trace w1)) = t0 + Z.to_nat (i + 1))%nat ->
            count_post eng wid t0 (act_phase stream wid k a c w1)).
  { intros a c w1 L1 C1. unfold act_phase, after_observe.
    destruct (act c a) as [[acts c2] ev2|m ev2]; reduce.
    2: { count_exit (i + 1). no_return. }
    destruct (observe c2 acts) as [[o c3] ev3|m ev3]; reduce.
    2: { count_exit (i + 1). no_return. }
    destruct (negb (Observations.requiresIteration o)); reduce.
    - count_exit (i + 1). returns_count.
    - destruct (refine c3 o) as [c4 ev4|m ev4].
      + apply Hk; [eauto 20 with live | count_simpl; lia].
      + count_exit (i + 1). no_return. }
  unfold iteration. destruct (think cur) as [[a c1] ev1|m ev1]; reduce.
  2: { count_exit (i + 1). no_return. }
  destruct (andb _ _).
  - match goal with |- context [requestApproval eng ?W ?P] =>
      destruct (requestApproval eng W P) as [b ev|m ev] end; reduce.
    2: { count_exit (i + 1). no_return. }
    destruct b; cbn [negb]; reduce.
    + apply Hact; [eauto 20 with live | count_simpl; lia].
    + count_exit (i + 1). returns_count.
  - apply Hact; [eauto 20 with live | count_simpl; lia].
Qed.

Lemma loop_count n cur w i :
  Live wid w i -> 0 <= i <= Z.max 0 (maxIterations eng) ->
  (think_calls (calls_of (trace w)) = t0 + Z.to_nat i)%nat ->
  (Z.to_nat (maxIterations eng - i) < n)%nat ->
  count_post eng wid t0 (loop eng stream wid n cur w).
Proof.
  revert cur w i. induction n as [|n IH]; intros cur w i L Hi C Hn; [lia|].
  cbn [loop]. destruct (isCancellationRequested w); reduce.
  - exists i. cbn [fst snd]. split; [eauto 20 with live|]. split; [lia|].
    split; [calls_simpl; exact C|]. split; [discriminate|no_return].
  - rewrite (Live_iterations wid w i L).
    destruct (Z.leb_spec (maxIterations eng) i).
    + exists i. cbn [fst snd]. split; [exact L|]. split; [lia|].
      split; [exact C|]. split; [discriminate|no_return].
    + apply pass_count with (i := i); auto; [lia|].
      intros c w' L' C'. apply (IH c w' (i + 1)); auto; lia.
Qed.
End Count.

(** The [finally] block keeps the state of [wid] and the calls made. *)
Lemma finally_keeps wid (w : World) j :
  Live wid w j ->
  let w' := write_status (update_state w wid
              (fun st => WorkflowState.set_endTime st (Some (clock w)))) wid completed by_finally in
  Live wid (set_deletions w' (deletions w' ++ [(clock w' + 60000, wid)])) j /\
  calls_of (trace (set_deletions w' (deletions w' ++ [(clock w' + 60000, wid)]))) =
    calls_of (trace w).
Proof.
  intros L. cbv zeta. split.
  - exact (Live_write wid _ j wid completed by_finally (Live_endTime wid w j wid _ L)).
  - unfold set_deletions; cbn [trace]. calls_simpl. reflexivity.
Qed.

Lemma executeWorkflow_counts_aux {Wf : Type} `{Workflow Wf}
    (eng : EngineEnv) (stream : bool) (wid : string) (workflow : Wf) (w0 : World) :
  let '(res, w) := Engine.executeWorkflow eng stream wid workflow w0 in
  exists st, getWorkflowState w wid = Some st /\
    0 <= WorkflowState.iterations st <= Z.max 0 (maxIterations eng) /\
    (think_calls (calls_of (trace w)) =
       think_calls (calls_of (trace w0)) + Z.to_nat (WorkflowState.iterations st))%nat /\
    res <> exec_out_of_fuel /\
    (forall r, res = exec_return r -> WorkflowResult.iterations r = WorkflowState.iterations st).
Proof.
  unfold Engine.executeWorkflow, executeWorkflowInternal. reduce.
  match goal with |- context [loop eng stream wid ?n workflow ?W] =>
    assert (P : count_post eng wid (think_calls (calls_of (trace w0)))
                  (loop eng stream wid n workflow W));
    [ apply loop_count with (i := 0);
      [ apply Live_start | lia
      | unfold record, set_active; cbn [trace]; rewrite calls_of_app, app_nil_r; lia
      | lia ]
    | destruct (loop eng stream wid n workflow W) as [x w1] ] end.
  destruct P as (j & L & B & C & Nf & R). cbn [fst snd] in *.
  destruct x; reduce.
  - destruct (finally_keeps wid w1 j L) as [[st [G It]] Cf]. exists st.
    split; [exact G|]. rewrite It. split; [lia|]. split; [rewrite Cf; exact C|].
    split; [discriminate|]. intros r0 E; injection E as <-. apply R. reflexivity.
  - destruct (finally_keeps wid w1 j L) as [[st [G It]] Cf]. exists st.
    split; [exact G|]. rewrite It. split; [lia|]. split; [rewrite Cf; exact C|].
    split; [discriminate|]. intros r0 E; discriminate E.
  - assert (Lw : Live wid (write_status w1 wid completed by_loop) j) by (apply Live_write; exact L).
    destruct (finally_keeps wid _ j Lw) as [[st [G It]] Cf]. exists st.
    split; [exact G|]. rewrite It. split; [lia|].
    split; [rewrite Cf; calls_simpl; exact C|].
    split; [discriminate|]. intros r0 E; injection E as <-.
    unfold cap_result; cbn [WorkflowResult.iterations].
    apply Live_iterations; exact Lw.
  - contradiction Nf; reflexivity.
Qed.

(** X17: In every run of [executeWorkflow] the loop ends (the fuel of the
    model is never exhausted), the final [iterations] of the state lies
    between 0 and [max(0, maxConcurrentWorkflows || 5)], [think] has been
    called exactly [iterations] times, and a returned result reports the
    state's [iterations]. *)
Theorem executeWorkflow_iterations_counted {Wf : Type} `{Workflow Wf}
    (eng : EngineEnv) (stream : bool) (wid : string) (workflow : Wf) (w0 : World) :
  let '(res, w) := Engine.executeWorkflow eng stream wid workflow w0 in
  exists st, getWorkflowState w wid = Some st /\
    0 <= WorkflowState.iterations st <= Z.max 0 (maxIterations eng) /\
    (think_calls (calls_of (trace w)) =
       think_calls (calls_of (trace w0)) + Z.to_nat (WorkflowState.iterations st))%nat /\
    res <> exec_out_of_fuel /\
    (forall r, res = exec_return r -> WorkflowResult.iterations r = WorkflowState.iterations st).
Proof. exact (executeWorkflow_counts_aux eng stream wid workflow w0). Qed.

Lemma all_statuses_app wid l1 l2 :
  all_statuses wid (l1 ++ l2) = (all_statuses wid l1 ++ all_statuses wid l2)%list.
Proof. apply flat_map_app. Qed.

(** Reading the state of [x] back after an update or a status write. *)
Lemma get_update w x f s :
  map_get (activeWorkflows w) x = Some s ->
  map_get (activeWorkflows (update_state w x f)) x = Some (f s).
Proof.
  intros E. unfold update_state. rewrite E. unfold set_active; cbn [activeWorkflows].
  rewrite map_get_set, String.eqb_refl. reflexivity.
Qed.

Lemma get_write w x s' b s :
  map_get (activeWorkflows w) x = Some s ->
  map_get (activeWorkflows (write_status w x s' b)) x = Some (WorkflowState.set_status s s') /\
  trace (write_status w x s' b) = (trace w ++ [o_status x s' b])%list.
Proof.
  intros E. split.
  - unfold write_status. rewrite E. exact (get_update w x _ s E).
  - rewrite trace_write, E. reflexivity.
Qed.

(** X18: With a token already cancelled, [executeWorkflow] calls none of the
    workflow's methods and throws [Workflow cancelled]; the state is
    assigned [thinking], [failed], then [completed] by the [finally] block,
    and keeps the error [Cancelled by user] with 0 iterations. *)
Theorem executeWorkflow_cancelled_token {Wf : Type} `{Workflow Wf}
    (eng : EngineEnv) (stream : bool) (wid : string) (workflow : Wf) (w0 : World) :
  isCancellationRequested w0 = true ->
  let '(res, w) := Engine.executeWorkflow eng stream wid workflow w0 in
  res = exec_throw "Workflow cancelled" /\
  calls_of (trace w) = calls_of (trace w0) /\
  all_statuses wid (trace w) = (all_statuses wid (trace w0) ++ [thinking; failed; completed])%list /\
  exists st, getWorkflowState w wid = Some st /\ WorkflowState.status st = completed /\
    WorkflowState.error st = Some "Cancelled by user" /\ WorkflowState.iterations st = 0.
Proof.
  intros Hc. unfold Engine.executeWorkflow, executeWorkflowInternal. reduce. cbn [loop].
  match goal with |- context [record (set_active w0 ?A) ?O] =>
    set (W1 := record (set_active w0 A) O) end.
  replace (isCancellationRequested W1) with true by (symmetry; exact Hc).
  reduce.
  assert (G1 : map_get (activeWorkflows W1) wid =
                 Some (WorkflowState.mk wid (wf_name workflow) thinking (clock w0) None None 0 None)).
  { unfold W1, record, set_active; cbn [activeWorkflows].
    rewrite map_get_set, String.eqb_refl. reflexivity. }
  destruct (get_write W1 wid failed by_loop _ G1) as [G2 T2].
  pose proof (get_update _ wid (fun st => WorkflowState.set_error st (Some "Cancelled by user")) _ G2)
    as G3.
  match goal with |- context [update_state ?W wid (fun st => WorkflowState.set_endTime st ?T)] =>
    pose proof (get_update W wid (fun st => WorkflowState.set_endTime st T) _ G3) as G4 end.
  destruct (get_write _ wid completed by_finally _ G4) as [G5 T5].
  unfold getWorkflowState, set_deletions, set_error in *; cbn [activeWorkflows trace] in *.
  rewrite G5, T5, !trace_update, T2.
  split; [reflexivity|].
  split.
  { rewrite !calls_of_app. unfold W1, record; cbn [trace]. rewrite calls_of_app.
    cbn. rewrite !app_nil_r. reflexivity. }
  split.
  { rewrite !all_statuses_app. unfold W1, record; cbn [trace]. rewrite all_statuses_app.
    cbn [all_statuses flat_map]. rewrite String.eqb_refl. rewrite <- !app_assoc. reflexivity. }
  eexists. split; [reflexivity|]. repeat split.
Qed.

(** X19: [cancelWorkflow] on an unknown id returns [false] and changes
    nothing; on a known id it returns [true], sets status [failed], error
    [Cancelled by user] and [endTime] to the current time, records one
    status assignment, leaves every other execution's state as it was and
    schedules no removal. *)
Theorem cancelWorkflow_marks_failed (w : World) (wid : string) :
  (getWorkflowState w wid = None -> cancelWorkflow w wid = (false, w)) /\
  (forall st, getWorkflowState w wid = Some st ->
    let '(b, w') := cancelWorkflow w wid in
    b = true /\
    getWorkflowState w' wid =
      Some (WorkflowState.mk (WorkflowState.id st) (WorkflowState.name st) failed
              (WorkflowState.startTime st) (Some (clock w)) (WorkflowState.currentPhase st)
              (WorkflowState.iterations st) (Some "Cancelled by user")) /\
    (forall x, x <> wid -> getWorkflowState w' x = getWorkflowState w x) /\
    trace w' = (trace w ++ [o_status wid failed by_cancel])%list /\
    deletions w' = deletions w).
Proof.
  unfold getWorkflowState, cancelWorkflow. split.
  - intros E. rewrite E. reflexivity.
  - intros st E. rewrite E. reduce.
    unfold write_status, update_state, record, set_active. rewrite E.
    repeat (cbn [activeWorkflows clock deletions token trace]; rewrite ?map_get_set, ?String.eqb_refl).
    split; [reflexivity|]. split; [reflexivity|]. split; [|split; reflexivity].
    intros x Hx. rewrite !map_get_set.
    destruct (String.eqb_spec x wid); [contradiction|reflexivity].
Qed.

(** X20: After [registerWorkflow(name, factory)], [createWorkflow(name, request)]
    returns [factory(request)], and the workflows created under any other
    name are those of before the registration. *)
Theorem createWorkflow_registered {Wf : Type} `{Workflow Wf} (fs : @Factories Wf)
    (name name' : string) (factory : AgentRequest.t -> Wf) (req : AgentRequest.t) :
  createWorkflow (registerWorkflow fs name factory) name req = Some (factory req) /\
  (name' <> name ->
   createWorkflow (registerWorkflow fs name factory) name' req = createWorkflow fs name' req).
Proof.
  unfold createWorkflow, registerWorkflow. rewrite !map_get_set, String.eqb_refl. split; [reflexivity|].
  intros Hn. destruct (String.eqb_spec name' name); [contradiction|reflexivity].
Qed.

(** X21: [CopilotAgent.processRequest] always produces a response (the loop
    never runs out of fuel). Without a ['default'] workflow the response
    has [success = false] and the error
    [Error: Workflow not found: default]; when the response carries
    [metadata.iterations], that is the number of [think] calls the request
    caused and lies between 0 and [max(0, maxConcurrentWorkflows || 5)]. *)
Theorem processRequest_response {Wf : Type} `{Workflow Wf}
    (eng : EngineEnv) (wid : string) (fs : @Factories Wf) (req : AgentRequest.t) (w : World) :
  let '(resp, w') := processRequest eng wid fs req w in
  exists r, resp = Some r /\
    (map_get fs "default" = None ->
       r = AgentResponse.mk false None (Some "Error: Workflow not found: default") None /\
       w' = set_token w None) /\
    (forall it, AgentResponse.metadata r = Some [("iterations", it)] ->
       (think_calls (calls_of (trace w')) = think_calls (calls_of (trace w)) + Z.to_nat it)%nat /\
       0 <= it <= Z.max 0 (maxIterations eng)).
Proof.
  unfold processRequest, Agent.executeWorkflow, createWorkflow.
  destruct (map_get fs "default") as [f|] eqn:Ef.
  - pose proof (executeWorkflow_counts_aux eng false wid (f req) (set_token w None)) as P.
    destruct (Engine.executeWorkflow eng false wid (f req) (set_token w None)) as [res w1].
    destruct P as (st & G & B & C & Nf & R).
    destruct res as [r|m|]; reduce.
    + eexists; split; [reflexivity|]. split; [discriminate|].
      intros it Em; cbn [AgentResponse.metadata] in Em. injection Em as <-.
      rewrite (R r eq_refl). split; [exact C|exact B].
    + eexists; split; [reflexivity|]. split; [discriminate|].
      intros it Em; discriminate Em.
    + contradiction Nf; reflexivity.
  - reduce. eexists; split; [reflexivity|]. split; [intros _; split; reflexivity|].
    intros it Em; discriminate Em.
Qed.
End EngineExtra.

(** ** The further properties on concrete runs *)
Module ExtraRuns.
Import Scenario.

(** Discharging the hypotheses about a request made on [gate0]. *)
Ltac req_wf := constructor; vm_compute; intros; contradiction.
Ltac req_fresh := constructor; [reflexivity|]; vm_compute; intros; contradiction.
Ltac after_wf :=
  constructor; vm_compute;
  [ intros t Ht; repeat destruct Ht as [<-|Ht]; try contradiction; auto
  | intros kv Ht; repeat destruct Ht as [<-|Ht]; try contradiction; auto
  | intros k v Ht; repeat destruct Ht as [Ht|Ht]; try contradiction; congruence
  | intros k o Ht; repeat destruct Ht as [Ht|Ht]; try contradiction; inversion Ht; reflexivity ].
Ltac after_unsettled :=
  apply HITLFacts.U_after_request; [req_wf | req_fresh | vm_compute; reflexivity].

(** X1, for a request made on a new manager and then approved with a comment. *)
Lemma handleApproval_decides_waiting_witness :
  let m := snd (HITL.requestApproval gate0 "r1" write_file None) in
  let m' := HITL.handleApproval m "r1" true (Some "ok") in
  HITL.resolutions_of m' "r1" = [true] /\
  (exists o, map_get (HITL.heap m') "r1" = Some o /\ In o (HITL.getAllApprovals m') /\
     ApprovalRequest.status o = ap_approved /\ ApprovalRequest.response o = Some "ok") /\
  (forall o, In o (HITL.getPendingApprovals m') -> ApprovalRequest.id o <> "r1") /\
  HITL.fire m' (HITL.nextHandle gate0) = m' /\
  HITL.cancelApproval m' "r1" = (false, m') /\
  HITL.find_timer (HITL.timers m') (HITL.nextHandle m)
    = Some (HITL.mkTimer (HITL.nextHandle m) (HITL.now m + 60000) (HITL.cb_evict "r1")) /\
  (forall o, In o (HITL.getAllApprovals (HITL.fire m' (HITL.nextHandle m))) ->
     ApprovalRequest.id o <> "r1").
Proof.
  apply (HITLExtra.handleApproval_decides_waiting _ "r1" (HITL.nextHandle gate0)
           (HITL.now gate0 + HITL.timeoutMs_of gate0 None) true (Some "ok")).
  - after_wf.
  - after_unsettled.
Defined.

(** X2, on the dialog of a request made on a new manager. *)
Lemma dialogAnswer_decides_witness :
  let m := snd (HITL.requestApproval gate0 "r1" write_file None) in
  (HITL.resolutions_of (HITL.dialogAnswer m "r1" (Some "Approve")) "r1" = [true] /\
   exists o, map_get (HITL.heap (HITL.dialogAnswer m "r1" (Some "Approve"))) "r1" = Some o /\
     ApprovalRequest.status o = ap_approved /\ ApprovalRequest.response o = None) /\
  (HITL.resolutions_of (HITL.dialogAnswer m "r1" (Some "Deny")) "r1" = [false] /\
   exists o, map_get (HITL.heap (HITL.dialogAnswer m "r1" (Some "Deny"))) "r1" = Some o /\
     ApprovalRequest.status o = ap_denied /\ ApprovalRequest.response o = None) /\
  (HITL.resolutions_of (HITL.dialogAnswer m "r1" None) "r1" = [false] /\
   exists o, map_get (HITL.heap (HITL.dialogAnswer m "r1" None)) "r1" = Some o /\
     ApprovalRequest.status o = ap_denied /\ ApprovalRequest.response o = Some "Dismissed").
Proof.
  apply (HITLExtra.dialogAnswer_decides _ "r1" (HITL.nextHandle gate0)
           (HITL.now gate0 + HITL.timeoutMs_of gate0 None)).
  - after_wf.
  - after_unsettled.
Defined.

(** X3, after the timeout of a request made on a new manager. *)
Lemma expired_request_ignores_answers_witness :
  let m' := HITL.fire (snd (HITL.requestApproval gate0 "r1" write_file None))
              (HITL.nextHandle gate0) in
  HITL.handleApproval m' "r1" true None = m' /\ HITL.cancelApproval m' "r1" = (false, m').
Proof.
  apply (HITLExtra.expired_request_ignores_answers _ "r1" (HITL.nextHandle gate0)
           (HITL.now gate0 + HITL.timeoutMs_of gate0 None) true None).
  after_unsettled.
Defined.

(** X4, for a request made on a new manager. *)
Lemma cancelApproval_waiting_witness :
  let '(ok, m') := HITL.cancelApproval (snd (HITL.requestApproval gate0 "r1" write_file None)) "r1" in
  ok = true /\
  HITL.resolutions_of m' "r1" = [false] /\
  (exists o, map_get (HITL.heap m') "r1" = Some o /\ ApprovalRequest.status o = ap_denied /\
     ApprovalRequest.response o = Some "Cancelled") /\
  (forall o, In o (HITL.getAllApprovals m') -> ApprovalRequest.id o <> "r1") /\
  HITL.fire m' (HITL.nextHandle gate0) = m' /\
  HITL.cancelApproval m' "r1" = (false, m') /\
  HITL.handleApproval m' "r1" true None = m'.
Proof.
  apply (HITLExtra.cancelApproval_waiting _ "r1" (HITL.nextHandle gate0)
           (HITL.now gate0 + HITL.timeoutMs_of gate0 None) true None).
  after_unsettled.
Defined.

(** X6, on the dialog of a request made on a new manager. *)
Lemma viewDetails_keeps_waiting_witness :
  let m := snd (HITL.requestApproval gate0 "r1" write_file None) in
  let m1 := HITL.dialogAnswer m "r1" (Some "View Details") in
  let m2 := HITL.fire m1 (HITL.nextHandle m) in
  HITL.Unsettled "r1" (HITL.nextHandle gate0)
    (HITL.now gate0 + HITL.timeoutMs_of gate0 None) m1 /\
  HITL.resolutions_of m1 "r1" = [] /\
  HITL.find_timer (HITL.timers m1) (HITL.nextHandle m)
    = Some (HITL.mkTimer (HITL.nextHandle m) (HITL.now m + 500) (HITL.cb_redisplay "r1")) /\
  HITL.dialogs m2 = (HITL.dialogs m ++ ["r1"])%list /\
  HITL.Unsettled "r1" (HITL.nextHandle gate0)
    (HITL.now gate0 + HITL.timeoutMs_of gate0 None) m2 /\
  HITL.resolutions_of m2 "r1" = [].
Proof.
  apply (HITLExtra.viewDetails_keeps_waiting _ "r1" (HITL.nextHandle gate0)
           (HITL.now gate0 + HITL.timeoutMs_of gate0 None)).
  - after_wf.
  - after_unsettled.
Defined.

(** X10, for a read action on a manager without auto-approval. *)
Lemma default_manager_asks_user_witness :
  autoApproveReadOnly (cfg false 5) = false /\
  let '(p, m) := HITL.requestApproval (HITL.create (cfg false 5) 0) "r1" read_file None in
  p = HITL.awaiting "r1" /\ HITL.dialogs m = ["r1"] /\
  HITL.getPendingApprovals m = [ApprovalRequest.mk "r1" read_file 0 ap_pending None] /\
  HITL.timers m = [HITL.mkTimer 1 (0 + js_or_num (approvalTimeout (cfg false 5)) 30000)
                     (HITL.cb_expire "r1")].
Proof.
  split; [reflexivity|].
  apply (RulesExtra.default_manager_asks_user (cfg false 5) 0 "r1" read_file).
  reflexivity.
Defined.

(** X13, on a logger created over empty storage. *)
Lemma logDecision_history_witness :
  let l := Audit.create None in
  (length (Audit.logs l) < 1000)%nat /\
  ApprovalManager.getApprovalHistory (ApprovalManager.logDecision l "e1" 7 write_file true)
  = (ApprovalManager.getApprovalHistory l ++
     [Audit.AuditLogEntry.mk "e1" 7 Audit.approval None
        (Audit.d_approval (if String.eqb (ProposedAction.type write_file) "" then "unknown"
                           else ProposedAction.type write_file) true write_file None)])%list /\
  (forall ty, ty <> Audit.approval ->
     Audit.getLogsByType (ApprovalManager.logDecision l "e1" 7 write_file true) ty
     = Audit.getLogsByType l ty).
Proof.
  split; [vm_compute; lia|].
  apply (AuditExtra.logDecision_history (Audit.create None) "e1" 7 write_file true).
  vm_compute. lia.
Defined.

(** X15, after a tool execution is logged and the log is cleared. *)
Lemma audit_logs_persist_witness :
  let l := Audit.apply_ops (Audit.create None)
             [Audit.op_logToolExecution "e1" 1 "file" "{}"; Audit.op_clearLogs] in
  Audit.stored l = Some (Audit.getAllLogs l) /\
  Audit.getAllLogs (Audit.create (Audit.stored l)) = Audit.getAllLogs l.
Proof.
  apply (AuditExtra.audit_logs_persist None
           [Audit.op_logToolExecution "e1" 1 "file" "{}"; Audit.op_clearLogs]).
  discriminate.
Defined.

(** X18, with a scripted workflow and a token cancelled beforehand. *)
Lemma executeWorkflow_cancelled_token_witness :
  Engine.isCancellationRequested (Engine.mkWorld [] (Some true) 0 [] []) = true /\
  let '(res, w) := Engine.executeWorkflow (engine (cfg false 3) true) true "wf1"
                     (script false 0 no_events) (Engine.mkWorld [] (Some true) 0 [] []) in
  res = Engine.exec_throw "Workflow cancelled" /\
  EngineProps.calls_of (Engine.trace w) = [] /\
  EngineProps.all_statuses "wf1" (Engine.trace w) = [thinking; failed; completed] /\
  exists st, Engine.getWorkflowState w "wf1" = Some st /\ WorkflowState.status st = completed /\
    WorkflowState.error st = Some "Cancelled by user" /\ WorkflowState.iterations st = 0.
Proof.
  split; [reflexivity|].
  apply (EngineExtra.executeWorkflow_cancelled_token (engine (cfg false 3) true) true "wf1"
           (script false 0 no_events) (Engine.mkWorld [] (Some true) 0 [] [])).
  reflexivity.
Defined.
End ExtraRuns.
